(** * Budget planner: the Supabase data layer (lib/db.js)

    A shallow embedding of the store accessors and the three summary
    functions of [lib/db.js], and the properties the specification states
    about them.

    Conventions of the embedding.
    - The amount of a row is a decimal ([Q]), as a numeric column holds
      it.  [getBudgetStatus] and the colours of the budget bars, whose
      results depend on the rounding of every operation, are embedded over
      IEEE 754 binary64 (module [B64], on [PrimFloat.float]).  The
      monthly and yearly summaries, and the properties that relate
      [getBudgetStatus] to them or to the dashboard, are stated on the
      exact reading of the code, in which a number is the decimal itself,
      every sum is an exact sum and numeric results are compared with
      [==].  Where the source tests the truthiness of a number ([!x],
      [x || 0]) the test is written out: zero is falsy, and so is NaN.
    - A [DATE] value is a calendar triple.  The source sends date bounds as
      text, [`${year}-${String(month).padStart(2, '0')}-01`]; the bound is
      modelled by the date that text denotes, and the comparisons the
      database makes ([gte], [lt]) are chronological.
    - Identifiers are the text of a UUID column, so an object keyed by them
      enumerates its properties in insertion order and never meets an
      inherited property name.
    - [await] on a Supabase request never throws: the client answers with a
      record [{data, error, count}].  A request that does not reach the
      database answers with [data] and [count] null and [error] set. *)

From Stdlib Require Import QArith Qminmax Lqa.
From Stdlib Require PrimFloat FloatOps SpecFloat.
From stdpp Require Import base option list sorting gmap strings.

Local Open Scope string_scope.
Local Open Scope list_scope.
Local Open Scope Z_scope.

(** ** JavaScript numbers *)

Module Js.

(** [!x] is true for the number zero. *)
Definition truthy (x : Q) : bool := negb (Qeq_bool x 0).

(** [x || d] on numbers. *)
Definition num_or (x d : Q) : Q := if truthy x then x else d.

(** [o || d] where [o] may be [undefined], [null] or [NaN]. *)
Definition opt_num_or (o : option Q) (d : Q) : Q :=
  match o with
  | Some x => num_or x d
  | None => d
  end.

(** [o || d] on text: the empty string and [undefined] are falsy. *)
Definition opt_str_or (o : option string) (d : string) : string :=
  match o with
  | Some s => if decide (s = "") then d else s
  | None => d
  end.

(** [count > 0] where [count] may be [null] or [undefined]. *)
Definition gt0 (count : option nat) : bool :=
  match count with
  | Some n => bool_decide (0 < n)%nat
  | None => false
  end.

(** Truthiness of a possibly missing number ([!obj[k]], [month && year]). *)
Definition opt_truthy (o : option Q) : bool :=
  match o with
  | Some x => truthy x
  | None => false
  end.

Definition truthy_int (o : option Z) : bool :=
  match o with
  | Some z => bool_decide (z ≠ 0)
  | None => false
  end.

(** Truthiness of an optional text argument ([if (type)]). *)
Definition truthy_str (o : option string) : bool :=
  match o with
  | Some s => bool_decide (s ≠ "")
  | None => false
  end.

(** [a > b] on numbers. *)
Definition gt (a b : Q) : bool :=
  match (a ?= b)%Q with
  | Gt => true
  | _ => false
  end.

(** [Math.max] and [Math.min] on two numbers. *)
Definition max (a b : Q) : Q := Qmax a b.
Definition min (a b : Q) : Q := Qmin a b.

End Js.

(** ** Dates and Periods *)

Record Date := mkDate { d_year : Z; d_month : Z; d_day : Z }.

#[global] Instance Date_eq_dec : EqDecision Date.
Proof. solve_decision. Defined.

Definition date_lt (a b : Date) : Prop :=
  d_year a < d_year b ∨
  (d_year a = d_year b ∧
   (d_month a < d_month b ∨ (d_month a = d_month b ∧ d_day a < d_day b))).

Definition date_le (a b : Date) : Prop :=
  d_year a < d_year b ∨
  (d_year a = d_year b ∧
   (d_month a < d_month b ∨ (d_month a = d_month b ∧ d_day a ≤ d_day b))).

#[global] Instance date_lt_dec a b : Decision (date_lt a b).
Proof. unfold date_lt. apply _. Defined.

#[global] Instance date_le_dec a b : Decision (date_le a b).
Proof. unfold date_le. apply _. Defined.

(** A date a [DATE] column can hold. *)
Definition calendar_date (d : Date) : Prop :=
  1 ≤ d_month d ≤ 12 ∧ 1 ≤ d_day d ≤ 31.

(** [startDate], [endMonth], [endYear] and [endDate] as every function of
    the source that takes a month and a year computes them. *)
Definition startDate (month year : Z) : Date := mkDate year month 1.

Definition endMonth (month : Z) : Z :=
  if decide (month = 12) then 1 else month + 1.

Definition endYear (month year : Z) : Z :=
  if decide (month = 12) then year + 1 else year.

Definition endDate (month year : Z) : Date :=
  mkDate (endYear month year) (endMonth month) 1.

(** The Period of (month, year): [startDate <= d < endDate]. *)
Definition in_period (month year : Z) (d : Date) : Prop :=
  date_le (startDate month year) d ∧ date_lt d (endDate month year).

#[global] Instance in_period_dec month year d : Decision (in_period month year d).
Proof. unfold in_period. apply _. Defined.

(** ** Rows *)

Record Category := mkCategory {
  cat_id : string;
  cat_name : string;
  cat_type : string;
  cat_budget_limit : option Q;   (* nullable DECIMAL; [None] parses to NaN *)
  cat_color : string;
  cat_created_at : string
}.

Record Transaction := mkTransaction {
  tx_id : string;
  tx_type : string;
  tx_amount : Q;
  tx_category_id : string;
  tx_description : option string;   (* nullable TEXT *)
  tx_date : Date;
  tx_created_at : string
}.

(** [parseFloat] of a numeric column is the number itself; of a null
    column it is NaN, which is [None] here. *)
Definition parseFloat (x : Q) : Q := x.
Definition parseFloat_opt (x : option Q) : option Q := x.

(** ** The database behind the Supabase client *)

(** The two tables.  [fk_restrict] records whether the deployed schema
    carries [REFERENCES categories(id) ON DELETE RESTRICT] on
    [transactions.category_id]; the properties below hold either way. *)
Record Db := mkDb {
  categories : list Category;
  transactions : list Transaction;
  fk_restrict : bool
}.

(** Filters of a query on [transactions], as the builder methods add them. *)
Inductive TxFilter :=
| DateGte (d : Date)
| DateLt (d : Date)
| TxTypeEq (s : string)
| TxCategoryIdEq (s : string).

Definition tx_matches (t : Transaction) (f : TxFilter) : Prop :=
  match f with
  | DateGte d => date_le d (tx_date t)
  | DateLt d => date_lt (tx_date t) d
  | TxTypeEq s => tx_type t = s
  | TxCategoryIdEq s => tx_category_id t = s
  end.

#[global] Instance tx_matches_dec t f : Decision (tx_matches t f).
Proof. destruct f; simpl; apply _. Defined.

Record TxQuery := mkTxQuery {
  tq_where : list TxFilter;
  tq_order_date_desc : bool;
  tq_limit : option nat
}.

(** [supabase.from('transactions')] and the builder methods the source uses.
    Each method adds its parameter to the request; the request is sent when
    the builder is awaited. *)
Module Tx.
Definition select : TxQuery := mkTxQuery [] false None.
Definition order_date_desc (q : TxQuery) : TxQuery :=
  mkTxQuery (tq_where q) true (tq_limit q).
Definition limit (n : nat) (q : TxQuery) : TxQuery :=
  mkTxQuery (tq_where q) (tq_order_date_desc q) (Some n).
Definition add (f : TxFilter) (q : TxQuery) : TxQuery :=
  mkTxQuery (tq_where q ++ [f]) (tq_order_date_desc q) (tq_limit q).
Definition gte_date (d : Date) := add (DateGte d).
Definition lt_date (d : Date) := add (DateLt d).
Definition eq_type (s : string) := add (TxTypeEq s).
Definition eq_category_id (s : string) := add (TxCategoryIdEq s).
End Tx.

Inductive CatFilter :=
| CatTypeEq (s : string).

Definition cat_matches (c : Category) (f : CatFilter) : Prop :=
  match f with
  | CatTypeEq s => cat_type c = s
  end.

#[global] Instance cat_matches_dec c f : Decision (cat_matches c f).
Proof. destruct f; simpl; apply _. Defined.

Record CatQuery := mkCatQuery { cq_where : list CatFilter }.

Module Cat.
Definition select : CatQuery := mkCatQuery [].
Definition eq_type (s : string) (q : CatQuery) : CatQuery :=
  mkCatQuery (cq_where q ++ [CatTypeEq s]).
End Cat.

(** [ORDER BY date DESC]: [a] may come before [b]. *)
Definition not_older (a b : Transaction) : Prop :=
  date_le (tx_date b) (tx_date a).

#[global] Instance not_older_dec a b : Decision (not_older a b).
Proof. unfold not_older. apply _. Defined.

(** What the database answers to a query on [transactions]: the rows that
    pass every filter, then the ordering, then the row limit. *)
Definition run_tx_query (q : TxQuery) (rows : list Transaction) : list Transaction :=
  let selected := filter (λ t, Forall (tx_matches t) (tq_where q)) rows in
  let ordered :=
    if tq_order_date_desc q then merge_sort not_older selected else selected in
  match tq_limit q with
  | Some n => take n ordered
  | None => ordered
  end.

Definition run_cat_query (q : CatQuery) (rows : list Category) : list Category :=
  filter (λ c, Forall (cat_matches c) (cq_where q)) rows.

(** The answer of the client to an awaited request. *)
Record Response (A : Type) := mkResponse {
  data : option A;
  error : option string;
  count : option nat
}.
Arguments mkResponse {A} _ _ _.
Arguments data {A} _.
Arguments error {A} _.
Arguments count {A} _.

(** The requests [lib/db.js] sends in the functions modelled here. *)
Inductive Request : Type → Type :=
| SelectTransactions (q : TxQuery) : Request (list Transaction)
| SelectCategories (q : CatQuery) : Request (list Category)
| CountTransactions (q : TxQuery) : Request unit
| DeleteCategory (id : string) : Request unit.

Definition references (id : string) (t : Transaction) : Prop :=
  tx_category_id t = id.

#[global] Instance references_dec id t : Decision (references id t).
Proof. unfold references. apply _. Defined.

(** The database serving a request that reached it. *)
Definition serve {A : Type} (rq : Request A) (d : Db) : Response A * Db :=
  match rq in Request T return (Response T * Db)%type with
  | SelectTransactions q =>
      (mkResponse (Some (run_tx_query q (transactions d))) None None, d)
  | SelectCategories q =>
      (mkResponse (Some (run_cat_query q (categories d))) None None, d)
  | CountTransactions q =>
      (* [{ count: 'exact', head: true }]: the count and no rows *)
      (mkResponse None None (Some (length (run_tx_query q (transactions d)))), d)
  | DeleteCategory id =>
      if fk_restrict d && bool_decide (Exists (references id) (transactions d))
      then (mkResponse None (Some "violates foreign key constraint") None, d)
      else (mkResponse None None None,
            mkDb (filter (λ c, cat_id c ≠ id) (categories d))
                 (transactions d) (fk_restrict d))
  end.

(** ** Awaiting requests *)

Inductive Exception :=
| PostgrestError (msg : string)   (* [throw error], the error of a response *)
| JsError (msg : string)          (* [throw new Error(msg)] *)
| TypeError.                      (* a method called on [null] data *)

Inductive Result (A : Type) :=
| Ok (a : A)
| Throw (e : Exception).
Arguments Ok {A} _.
Arguments Throw {A} _.

(** The world an async function runs in: the database, the fate of the
    requests to come ([Some msg]: the request fails with [msg] before it
    reaches the database; [None], or no entry: it is served), and the
    requests sent so far. *)
Record World := mkWorld {
  db : Db;
  outages : list (option string);
  sent : list {A : Type & Request A}
}.

Definition Async (A : Type) : Type := World → Result A * World.

#[global] Instance Async_ret : MRet Async := λ A a w, (Ok a, w).

#[global] Instance Async_bind : MBind Async := λ A B f m w,
  match m w with
  | (Ok a, w') => f a w'
  | (Throw e, w') => (Throw e, w')
  end.

Definition throw {A : Type} (e : Exception) : Async A := λ w, (Throw e, w).

(** Calling a method of [data] ([forEach], [map]): a TypeError on [null]. *)
Definition deref {A : Type} (o : option A) : Async A :=
  match o with
  | Some a => mret a
  | None => throw TypeError
  end.

(** [await] of a request. *)
Definition send {A : Type} (rq : Request A) : Async (Response A) := λ w,
  let sent' := sent w ++ [existT A rq] in
  match outages w with
  | Some msg :: rest =>
      (Ok (mkResponse None (Some msg) None), mkWorld (db w) rest sent')
  | None :: rest =>
      let '(r, d') := serve rq (db w) in (Ok r, mkWorld d' rest sent')
  | [] =>
      let '(r, d') := serve rq (db w) in (Ok r, mkWorld d' [] sent')
  end.

(** A world in which every request is served. *)
Definition healthy (d : Db) : World := mkWorld d [] [].

(** The errors of the specification's error model that the accessors raise
    themselves. *)
Definition HasDependents : Exception :=
  JsError "Cannot delete category with existing transactions".
Definition CategoryNotFound : Exception := JsError "Category not found".


(** ** Category Store accessor: [deleteCategory] *)

Definition deleteCategory (id : string) : Async unit :=
  (* Check if category has transactions *)
  r ← send (CountTransactions (Tx.eq_category_id id Tx.select));
  if Js.gt0 (count r) then throw HasDependents
  else
    r' ← send (DeleteCategory id);
    match error r' with
    | Some e => throw (PostgrestError e)
    | None => mret tt
    end.

(** ** Transaction Store accessor: [getTransactions] *)

(** The destructured argument [{ month, year, type, category_id } = {}];
    [None] is a property left out. *)
Record TxListArgs := mkTxListArgs {
  arg_month : option Z;
  arg_year : option Z;
  arg_type : option string;
  arg_category_id : option string
}.

(** The row handed back to the caller. *)
Definition present_tx (tx : Transaction) : Transaction :=
  mkTransaction (tx_id tx) (tx_type tx) (parseFloat (tx_amount tx))
    (tx_category_id tx) (Some (Js.opt_str_or (tx_description tx) ""))
    (tx_date tx) (tx_created_at tx).

Definition getTransactions_query (args : TxListArgs) : TxQuery :=
  let query := Tx.limit 1000 (Tx.order_date_desc Tx.select) in
  let query :=
    if Js.truthy_int (arg_month args) && Js.truthy_int (arg_year args) then
      match arg_month args, arg_year args with
      | Some month, Some year =>
          Tx.lt_date (endDate month year)
            (Tx.gte_date (startDate month year) query)
      | _, _ => query
      end
    else query in
  let query :=
    if Js.truthy_str (arg_type args)
    then Tx.eq_type (default "" (arg_type args)) query
    else query in
  let query :=
    if Js.truthy_str (arg_category_id args)
    then Tx.eq_category_id (default "" (arg_category_id args)) query
    else query in
  query.

Definition getTransactions (args : TxListArgs) : Async (list Transaction) :=
  r ← send (SelectTransactions (getTransactions_query args));
  match error r with
  | Some e => throw (PostgrestError e)
  | None =>
      rows ← deref (data r);
      mret (present_tx <$> rows)
  end.

(** ** Summary functions *)

(** A plain object used as a map from an id to a number.  Its properties
    are kept in insertion order, the order [Object.entries] lists them. *)
Module Obj.
Definition t : Type := list (string * Q).

Fixpoint get (o : t) (k : string) : option Q :=
  match o with
  | [] => None
  | (k', v) :: o' => if decide (k' = k) then Some v else get o' k
  end.

Fixpoint set (o : t) (k : string) (v : Q) : t :=
  match o with
  | [] => [(k, v)]
  | (k', v') :: o' =>
      if decide (k' = k) then (k, v) :: o' else (k', v') :: set o' k v
  end.

Definition entries (o : t) : list (string * Q) := o.
End Obj.

Record BreakdownEntry := mkBreakdownEntry {
  be_category_id : string;
  be_category_name : string;
  be_type : string;
  be_total : Q;
  be_budget_limit : Q;
  be_color : string
}.

Record MonthlySummary := mkMonthlySummary {
  ms_month : Z;
  ms_year : Z;
  ms_total_income : Q;
  ms_total_expenses : Q;
  ms_total_investments : Q;
  ms_balance : Q;
  ms_category_breakdown : list BreakdownEntry
}.

(** The four variables the [forEach] of [getMonthlySummary] updates. *)
Record MonthlyAcc := mkMonthlyAcc {
  totalIncome : Q;
  totalExpenses : Q;
  totalInvestments : Q;
  categoryTotals : Obj.t
}.

(** One turn of [transactions.forEach(tx => ...)] in [getMonthlySummary].
    The read in [categoryTotals[k] += amount] finds the property: the
    statement before it has just made sure it exists. *)
Definition monthly_step (acc : MonthlyAcc) (tx : Transaction) : MonthlyAcc :=
  let amount := parseFloat (tx_amount tx) in
  let '(income, expenses, investments) :=
    if decide (tx_type tx = "income")
    then ((totalIncome acc + amount)%Q, totalExpenses acc, totalInvestments acc)
    else if decide (tx_type tx = "investment")
    then (totalIncome acc, totalExpenses acc, (totalInvestments acc + amount)%Q)
    else (totalIncome acc, (totalExpenses acc + amount)%Q, totalInvestments acc) in
  let k := tx_category_id tx in
  let totals := categoryTotals acc in
  let totals :=
    if negb (Js.opt_truthy (Obj.get totals k)) then Obj.set totals k 0%Q
    else totals in
  let totals := Obj.set totals k (default 0%Q (Obj.get totals k) + amount)%Q in
  mkMonthlyAcc income expenses investments totals.

(** [catMap], filled by [categories.forEach(cat => { catMap[cat.id] = cat })]. *)
Definition build_catMap (cats : list Category) : gmap string Category :=
  foldl (λ catMap cat, <[cat_id cat := cat]> catMap) ∅ cats.

(** The callback of [Object.entries(categoryTotals).map].  [cat] is
    [catMap[catId] || {}]: [None] stands for the empty object, whose
    properties are all [undefined]. *)
Definition breakdown_entry (catMap : gmap string Category)
    (e : string * Q) : BreakdownEntry :=
  let '(catId, total) := e in
  let cat := catMap !! catId in
  mkBreakdownEntry
    catId
    (Js.opt_str_or (cat_name <$> cat) "Unknown")
    (Js.opt_str_or (cat_type <$> cat) "expense")
    total
    (Js.opt_num_or (cat ≫= λ c, parseFloat_opt (cat_budget_limit c)) 0%Q)
    (Js.opt_str_or (cat_color <$> cat) "#3D405B").

Definition getMonthlySummary (month year : Z) : Async MonthlySummary :=
  let startDate := startDate month year in
  let endDate := endDate month year in
  (* Get transactions *)
  r1 ← send (SelectTransactions
               (Tx.lt_date endDate (Tx.gte_date startDate Tx.select)));
  (* Get categories *)
  r2 ← send (SelectCategories Cat.select);
  categories ← deref (data r2);
  let catMap := build_catMap categories in
  transactions ← deref (data r1);
  let acc := foldl monthly_step (mkMonthlyAcc 0%Q 0%Q 0%Q []) transactions in
  let categoryBreakdown :=
    breakdown_entry catMap <$> Obj.entries (categoryTotals acc) in
  mret (mkMonthlySummary month year
          (totalIncome acc) (totalExpenses acc) (totalInvestments acc)
          (totalIncome acc - totalExpenses acc)%Q
          categoryBreakdown).

Record MonthEntry := mkMonthEntry {
  me_month : Z;
  me_income : Q;
  me_expenses : Q;
  me_investments : Q;
  me_balance : Q
}.

Record YearlySummary := mkYearlySummary {
  ys_year : Z;
  ys_monthly_data : list MonthEntry;
  ys_total_income : Q;
  ys_total_expenses : Q;
  ys_total_investments : Q
}.

(** The three variables the [forEach] of [getYearlySummary] updates. *)
Record YearlyAcc := mkYearlyAcc {
  income : Q;
  expenses : Q;
  investments : Q
}.

Definition yearly_step (acc : YearlyAcc) (tx : Transaction) : YearlyAcc :=
  let amount := parseFloat (tx_amount tx) in
  if decide (tx_type tx = "income")
  then mkYearlyAcc (income acc + amount)%Q (expenses acc) (investments acc)
  else if decide (tx_type tx = "investment")
  then mkYearlyAcc (income acc) (expenses acc) (investments acc + amount)%Q
  else mkYearlyAcc (income acc) (expenses acc + amount)%Q (investments acc).

(** The body of [for (let month = 1; month <= 12; month++)], run for the
    months still to come; [monthlyData.push] appends. *)
Fixpoint yearly_loop (year : Z) (months : list Z)
    (monthlyData : list MonthEntry) : Async (list MonthEntry) :=
  match months with
  | [] => mret monthlyData
  | month :: months' =>
      let startDate := startDate month year in
      let endDate := endDate month year in
      r ← send (SelectTransactions
                  (Tx.lt_date endDate (Tx.gte_date startDate Tx.select)));
      transactions ← deref (data r);
      let acc := foldl yearly_step (mkYearlyAcc 0%Q 0%Q 0%Q) transactions in
      yearly_loop year months'
        (monthlyData ++
           [mkMonthEntry month (income acc) (expenses acc) (investments acc)
              (income acc - expenses acc)%Q])
  end.

Definition getYearlySummary (year : Z) : Async YearlySummary :=
  monthlyData ← yearly_loop year (seqZ 1 12) [];
  mret (mkYearlySummary year monthlyData
          (foldl (λ sum m, (sum + me_income m)%Q) 0%Q monthlyData)
          (foldl (λ sum m, (sum + me_expenses m)%Q) 0%Q monthlyData)
          (foldl (λ sum m, (sum + Js.num_or (me_investments m) 0)%Q) 0%Q
             monthlyData)).

Record BudgetStatusEntry := mkBudgetStatusEntry {
  bs_category_id : string;
  bs_category_name : string;
  bs_budget_limit : Q;
  bs_spent : Q;
  bs_remaining : Q;
  bs_percentage : Q;
  bs_over_budget : bool;
  bs_color : string
}.

(** One turn of [transactions.forEach(tx => ...)] in [getBudgetStatus]. *)
Definition spending_step (spendingMap : gmap string Q)
    (tx : Transaction) : gmap string Q :=
  let k := tx_category_id tx in
  let spendingMap :=
    if negb (Js.opt_truthy (spendingMap !! k)) then <[k := 0%Q]> spendingMap
    else spendingMap in
  <[k := (default 0%Q (spendingMap !! k) + parseFloat (tx_amount tx))%Q]>
    spendingMap.

(** The callback of [categories.map] in [getBudgetStatus], on the exact
    reading; [B64.budget_entry] is the callback over binary64. *)
Definition budget_entry (spendingMap : gmap string Q)
    (cat : Category) : BudgetStatusEntry :=
  let spent := Js.opt_num_or (spendingMap !! cat_id cat) 0%Q in
  let budgetLimit := Js.opt_num_or (parseFloat_opt (cat_budget_limit cat)) 0%Q in
  let percentage :=
    if Js.gt budgetLimit 0%Q then (spent / budgetLimit * 100)%Q else 0%Q in
  mkBudgetStatusEntry
    (cat_id cat)
    (cat_name cat)
    budgetLimit
    spent
    (Js.max 0%Q (budgetLimit - spent)%Q)
    (Js.min percentage 100%Q)
    (Js.gt budgetLimit 0%Q && Js.gt spent budgetLimit)
    (cat_color cat).

Definition getBudgetStatus (month year : Z) : Async (list BudgetStatusEntry) :=
  let startDate := startDate month year in
  let endDate := endDate month year in
  (* Get expense categories *)
  r1 ← send (SelectCategories (Cat.eq_type "expense" Cat.select));
  (* Get spending by category *)
  r2 ← send (SelectTransactions
               (Tx.lt_date endDate
                  (Tx.gte_date startDate (Tx.eq_type "expense" Tx.select))));
  transactions ← deref (data r2);
  let spendingMap := foldl spending_step ∅ transactions in
  categories ← deref (data r1);
  mret (budget_entry spendingMap <$> categories).

(** ** The summaries as functions of the two tables

    The specification states the Aggregation Engine over a transaction
    list and a category list: these are the summary functions run against
    a database that holds the two lists and serves every request. *)

Definition result_of {A : Type} (m : Async A) (d : Db) : Result A :=
  (m (healthy d)).1.

Definition monthlySummary (txs : list Transaction) (cats : list Category)
    (month year : Z) : Result MonthlySummary :=
  result_of (getMonthlySummary month year) (mkDb cats txs false).

Definition yearlySummary (txs : list Transaction) (year : Z)
    : Result YearlySummary :=
  result_of (getYearlySummary year) (mkDb [] txs false).

Definition budgetStatus (txs : list Transaction) (cats : list Category)
    (month year : Z) : Result (list BudgetStatusEntry) :=
  result_of (getBudgetStatus month year) (mkDb cats txs false).

(** The exact sum of a list of numbers. *)
Definition Qsum (l : list Q) : Q := foldr Qplus 0%Q l.

Definition amounts (txs : list Transaction) : list Q := tx_amount <$> txs.

(** ** Vocabulary of the properties *)

(** The transactions of the Period of (month, year). *)
Definition period_of (month year : Z) (txs : list Transaction) : list Transaction :=
  filter (λ t, in_period month year (tx_date t)) txs.

Definition is_income (t : Transaction) : Prop := tx_type t = "income".
Definition is_investment (t : Transaction) : Prop := tx_type t = "investment".
Definition is_expense (t : Transaction) : Prop := tx_type t = "expense".
(** Neither income nor investment: type 'expense' and any other type. *)
Definition is_other (t : Transaction) : Prop :=
  tx_type t ≠ "income" ∧ tx_type t ≠ "investment".

#[global] Instance is_income_dec t : Decision (is_income t).
Proof. unfold is_income. apply _. Defined.
#[global] Instance is_investment_dec t : Decision (is_investment t).
Proof. unfold is_investment. apply _. Defined.
#[global] Instance is_expense_dec t : Decision (is_expense t).
Proof. unfold is_expense. apply _. Defined.
#[global] Instance is_other_dec t : Decision (is_other t).
Proof. unfold is_other. apply _. Defined.

(** The two statements the summary runs on [categoryTotals] for one
    transaction: create the property when it is missing or zero, then add
    the amount to it. *)
Definition Obj_bump (o : list (string * Q)) (k : string) (a : Q)
    : list (string * Q) :=
  let o' := if negb (Js.opt_truthy (Obj.get o k)) then Obj.set o k 0%Q else o in
  Obj.set o' k (default 0%Q (Obj.get o' k) + a)%Q.

(** One turn of the loop, as far as [categoryTotals] goes. *)
Definition bump_tx (o : list (string * Q)) (t : Transaction) : list (string * Q) :=
  Obj_bump o (tx_category_id t) (parseFloat (tx_amount t)).

(** The transactions of category [k]. *)
Definition in_category (k : string) (t : Transaction) : Prop :=
  tx_category_id t = k.

#[global] Instance in_category_dec k t : Decision (in_category k t).
Proof. unfold in_category. apply _. Defined.

(** The running total of a [forEach] that adds the amount of the
    transactions of one class and skips the others. *)
Definition add_if (P : Transaction → Prop) `{∀ t, Decision (P t)}
    (sum : Q) (t : Transaction) : Q :=
  if decide (P t) then (sum + parseFloat (tx_amount t))%Q else sum.

(** The entry the loop body pushes for one month. *)
Definition month_entry (txs : list Transaction) (year month : Z) : MonthEntry :=
  let p := period_of month year txs in
  mkMonthEntry month
    (foldl (add_if is_income) 0%Q p)
    (foldl (add_if is_other) 0%Q p)
    (foldl (add_if is_investment) 0%Q p)
    (foldl (add_if is_income) 0%Q p - foldl (add_if is_other) 0%Q p)%Q.

(** The two requests of [deleteCategory], as the log of a world keeps them. *)
Definition count_request (id : string) : {A : Type & Request A} :=
  @existT Type Request unit (CountTransactions (Tx.eq_category_id id Tx.select)).
Definition delete_request (id : string) : {A : Type & Request A} :=
  @existT Type Request unit (DeleteCategory id).

(** The next request fails before it reaches the database. *)
Definition next_request_fails (w : World) : Prop :=
  ∃ msg rest, outages w = Some msg :: rest.

(** Every request to come is served. *)
Definition all_served (w : World) : Prop :=
  Forall (λ o, o = None) (outages w).

(** Sample rows: Scenario A and Scenario C of the specification. *)
Definition groceries : Category :=
  mkCategory "c1" "Groceries" "expense" (Some 100%Q) "#E07A5F" "2025-01-01".

Definition lunch : Transaction :=
  mkTransaction "t1" "expense" 150%Q "c1" None (mkDate 2025 6 10) "2025-06-10".

(** A transaction whose type is none of the three the code names. *)
Definition gift : Transaction :=
  mkTransaction "t2" "gift" 25%Q "c1" None (mkDate 2025 6 15) "2025-06-15".

(** A world whose next request fails on the way to the database. *)
Definition offline_once (fk : bool) : World :=
  mkWorld (mkDb [groceries] [lunch] fk) [Some "fetch failed"] [].

(** ** The other accessors of [lib/db.js]

    The requests of these accessors are served by the functions below, one
    per request.  [await_db] consumes the fate of the request like [send]
    does; the log [sent] keeps the requests of [Request] only.  A write
    is held to the column types and the CHECK constraints of
    [backend/supabase_schema.sql] ([Schema] below); the tables themselves
    may hold any row, as the summary functions are written for a
    transaction type the schema text does not list. *)

Definition await_db {A : Type} (srv : Db → Response A * Db)
    : Async (Response A) := λ w,
  match outages w with
  | Some msg :: rest =>
      (Ok (mkResponse None (Some msg) None), mkWorld (db w) rest (sent w))
  | None :: rest =>
      let '(r, d') := srv (db w) in (Ok r, mkWorld d' rest (sent w))
  | [] =>
      let '(r, d') := srv (db w) in (Ok r, mkWorld d' [] (sent w))
  end.

(** [.single()]: the one row, or an error and null data when the rows are
    none or several. *)
Definition single {A : Type} (rows : list A) : Response A :=
  match rows with
  | [row] => mkResponse (Some row) None None
  | _ => mkResponse None
           (Some "JSON object requested, multiple (or no) rows returned") None
  end.

(** The object the category accessors build from a row. *)
Definition present_cat (cat : Category) : Category :=
  mkCategory (cat_id cat) (cat_name cat) (cat_type cat)
    (Some (Js.opt_num_or (parseFloat_opt (cat_budget_limit cat)) 0%Q))
    (cat_color cat) (cat_created_at cat).

(** [updates] of [updateCategory]: [None] is a property left out. *)
Record CategoryUpdates := mkCategoryUpdates {
  cu_name : option string;
  cu_type : option string;
  cu_budget_limit : option Q;
  cu_color : option string
}.

(** [transactionData], as the transaction form builds it; [None] is a
    description left out. *)
Record TransactionData := mkTransactionData {
  td_type : string;
  td_amount : Q;
  td_category_id : string;
  td_description : option string;
  td_date : Date
}.

(** [updates] of [updateTransaction]: [None] is a property left out. *)
Record TransactionUpdates := mkTransactionUpdates {
  tu_type : option string;
  tu_amount : option Q;
  tu_category_id : option string;
  tu_description : option string;
  tu_date : option Date
}.

Definition has_id (id : string) (c : Category) : Prop := cat_id c = id.
Definition tx_has_id (id : string) (t : Transaction) : Prop := tx_id t = id.

#[global] Instance has_id_dec id c : Decision (has_id id c).
Proof. unfold has_id. apply _. Defined.
#[global] Instance tx_has_id_dec id t : Decision (tx_has_id id t).
Proof. unfold tx_has_id. apply _. Defined.

Definition update_cat (u : CategoryUpdates) (c : Category) : Category :=
  mkCategory (cat_id c)
    (default (cat_name c) (cu_name u))
    (default (cat_type c) (cu_type u))
    (match cu_budget_limit u with Some b => Some b | None => cat_budget_limit c end)
    (default (cat_color c) (cu_color u))
    (cat_created_at c).

Definition update_tx (u : TransactionUpdates) (t : Transaction) : Transaction :=
  mkTransaction (tx_id t)
    (default (tx_type t) (tu_type u))
    (default (tx_amount t) (tu_amount u))
    (default (tx_category_id t) (tu_category_id u))
    (match tu_description u with Some s => Some s | None => tx_description t end)
    (default (tx_date t) (tu_date u))
    (tx_created_at t).

(** ** The columns of [backend/supabase_schema.sql]

    What the database makes of the values of a write before it stores
    them.  A number of the request body is the decimal its text denotes,
    and a [Date] the date its text denotes: a text that denotes no
    calendar date is a triple that is none. *)
Module Schema.

(** The integer nearest to a number, ties away from zero: the rounding of
    [numeric]. *)
Definition round_half_away (x : Q) : Z :=
  Z.sgn (Qnum x)
  * ((2 * Z.abs (Qnum x) + Z.pos (Qden x)) / (2 * Z.pos (Qden x))).

(** [DECIMAL(15, 2)]: the value is rounded to two decimals and refused
    ('numeric field overflow') when the rounded value reaches 10^13. *)
Definition decimal_15_2 (x : Q) : option Q :=
  let cents := round_half_away (x * 100) in
  if decide (Z.abs cents < 10 ^ 15) then Some (Qred (cents # 100)) else None.

(** [CHECK (type IN ('income', 'expense'))], on both tables.  It leaves
    nothing for [VARCHAR(20)] to refuse or to cut. *)
Definition type_check (type : string) : Prop :=
  type = "income" ∨ type = "expense".

#[global] Instance type_check_dec type : Decision (type_check type).
Proof. unfold type_check. apply _. Defined.

(** [DATE]: a day of the calendar, from the year 1 to the year 5874897. *)
Definition leap_year (year : Z) : bool :=
  bool_decide (year mod 4 = 0)
  && (negb (bool_decide (year mod 100 = 0)) || bool_decide (year mod 400 = 0)).

Definition days_in_month (year month : Z) : Z :=
  if decide (month = 2) then (if leap_year year then 29 else 28)
  else if decide (month = 4 ∨ month = 6 ∨ month = 9 ∨ month = 11) then 30
  else 31.

Definition valid_date (d : Date) : Prop :=
  1 ≤ d_year d ≤ 5874897
  ∧ 1 ≤ d_month d ≤ 12
  ∧ 1 ≤ d_day d ≤ days_in_month (d_year d) (d_month d).

#[global] Instance valid_date_dec d : Decision (valid_date d).
Proof. unfold valid_date. apply _. Defined.

Definition date (d : Date) : option Date :=
  if decide (valid_date d) then Some d else None.

(** [VARCHAR(n)]: a longer text is refused ('value too long'), unless
    what exceeds [n] characters is spaces only, which are cut. *)
Fixpoint spaces (s : string) : bool :=
  match s with
  | EmptyString => true
  | String c s' => bool_decide (String c "" = " ") && spaces s'
  end.

Definition varchar (n : nat) (s : string) : option string :=
  if decide (String.length s ≤ n)%nat then Some s
  else if spaces (String.substring n (String.length s - n) s)
       then Some (String.substring 0 n s)
       else None.

(** A property left out of the request body is left alone. *)
Definition given {A : Type} (column : A → option A) (o : option A)
    : option (option A) :=
  match o with
  | Some x => Some <$> column x
  | None => Some None
  end.

(** The values the columns of [transactions] take for [transactionData]
    and for [updates], [None] when one of them is refused.  A description
    left out of an insert takes the column default, the empty text. *)
Definition transaction_data (td : TransactionData) : option TransactionData :=
  amount ← decimal_15_2 (td_amount td);
  date ← date (td_date td);
  Some (mkTransactionData (td_type td) amount (td_category_id td)
          (Some (default "" (td_description td))) date).

Definition transaction_updates (u : TransactionUpdates)
    : option TransactionUpdates :=
  amount ← given decimal_15_2 (tu_amount u);
  date ← given date (tu_date u);
  Some (mkTransactionUpdates (tu_type u) amount (tu_category_id u)
          (tu_description u) date).

(** The same for the columns of [categories]. *)
Definition category_updates (u : CategoryUpdates) : option CategoryUpdates :=
  name ← given (varchar 255) (cu_name u);
  budget_limit ← given decimal_15_2 (cu_budget_limit u);
  color ← given (varchar 7) (cu_color u);
  Some (mkCategoryUpdates name (cu_type u) budget_limit color).

End Schema.

(** The raw row an insert stores. *)
Definition new_transaction (id created_at : string) (td : TransactionData)
    : Transaction :=
  mkTransaction id (td_type td) (td_amount td) (td_category_id td)
    (td_description td) (td_date td) created_at.

(** The database serving the requests.  [id] and [created_at] of an insert
    are the values the column defaults [gen_random_uuid()] and [NOW()]
    take for the new row.  A write whose values a column type refuses, or
    whose row fails a constraint, answers with an error and changes
    nothing, and so does a request for a single object that meets no row,
    or several. *)
Module Pg.

Definition refused {A : Type} (msg : string) (d : Db) : Response A * Db :=
  (mkResponse None (Some msg) None, d).

(** [from('categories').select('*').order('name')]; [name_le] is the
    collation of the database. *)
Definition select_categories_by_name (name_le : string → string → Prop)
    `{∀ a b, Decision (name_le a b)} (d : Db) : Response (list Category) * Db :=
  (mkResponse
     (Some (merge_sort (λ a b, name_le (cat_name a) (cat_name b)) (categories d)))
     None None, d).

(** [from('categories').select('id').eq('id', id).single()] *)
Definition select_category_id (id : string) (d : Db) : Response string * Db :=
  (single (cat_id <$> filter (has_id id) (categories d)), d).

(** [from('categories').update(updates).eq('id', id).select().single()] *)
Definition update_category (id : string) (u : CategoryUpdates) (d : Db)
    : Response Category * Db :=
  match Schema.category_updates u with
  | None => refused "value out of range for the type of the column" d
  | Some stored =>
      match filter (has_id id) (categories d) with
      | [c] =>
          if negb (bool_decide (Schema.type_check (cat_type (update_cat stored c))))
          then refused "violates check constraint" d
          else
            (mkResponse (Some (update_cat stored c)) None None,
             mkDb ((λ c, if decide (has_id id c) then update_cat stored c else c)
                     <$> categories d)
                  (transactions d) (fk_restrict d))
      | rows => (single rows, d)
      end
  end.

(** [from('transactions').insert(transactionData).select().single()] *)
Definition insert_transaction (id created_at : string) (td : TransactionData)
    (d : Db) : Response Transaction * Db :=
  match Schema.transaction_data td with
  | None => refused "value out of range for the type of the column" d
  | Some stored =>
      if negb (bool_decide (Schema.type_check (td_type stored)))
      then refused "violates check constraint" d
      else if bool_decide (Exists (tx_has_id id) (transactions d))
      then refused "duplicate key value violates unique constraint" d
      else if fk_restrict d
              && negb (bool_decide
                         (Exists (has_id (td_category_id stored)) (categories d)))
      then refused "violates foreign key constraint" d
      else
        let row := new_transaction id created_at stored in
        (mkResponse (Some row) None None,
         mkDb (categories d) (transactions d ++ [row]) (fk_restrict d))
  end.

(** [from('transactions').update(updates).eq('id', id).select().single()] *)
Definition update_transaction (id : string) (u : TransactionUpdates) (d : Db)
    : Response Transaction * Db :=
  match Schema.transaction_updates u with
  | None => refused "value out of range for the type of the column" d
  | Some stored =>
      match filter (tx_has_id id) (transactions d) with
      | [t] =>
          if negb (bool_decide (Schema.type_check (tx_type (update_tx stored t))))
          then refused "violates check constraint" d
          else if fk_restrict d
                  && negb (bool_decide
                             (Exists (has_id (tx_category_id (update_tx stored t)))
                                (categories d)))
          then refused "violates foreign key constraint" d
          else
            (mkResponse (Some (update_tx stored t)) None None,
             mkDb (categories d)
                  ((λ t, if decide (tx_has_id id t) then update_tx stored t else t)
                     <$> transactions d)
                  (fk_restrict d))
      | rows => (single rows, d)
      end
  end.

(** [from('transactions').delete().eq('id', id)] *)
Definition delete_transaction (id : string) (d : Db) : Response unit * Db :=
  (mkResponse None None None,
   mkDb (categories d) (filter (λ t, ¬ tx_has_id id t) (transactions d))
        (fk_restrict d)).

End Pg.

(** [if (error) throw error], then the object built from [data]. *)
Definition returning {A B : Type} (r : Response A) (present : A → B) : Async B :=
  match error r with
  | Some e => throw (PostgrestError e)
  | None =>
      row ← deref (data r);
      mret (present row)
  end.

Definition getCategories (name_le : string → string → Prop)
    `{∀ a b, Decision (name_le a b)} : Async (list Category) :=
  r ← await_db (Pg.select_categories_by_name name_le);
  returning r (fmap present_cat).

Definition updateCategory (id : string) (updates : CategoryUpdates)
    : Async Category :=
  r ← await_db (Pg.update_category id updates);
  returning r present_cat.

Definition createTransaction (id created_at : string)
    (transactionData : TransactionData) : Async Transaction :=
  (* Verify category exists *)
  c ← await_db (Pg.select_category_id (td_category_id transactionData));
  match data c with
  | None => throw CategoryNotFound
  | Some _ =>
      r ← await_db (Pg.insert_transaction id created_at transactionData);
      returning r present_tx
  end.

Definition updateTransaction (id : string) (updates : TransactionUpdates)
    : Async Transaction :=
  _ ← (if Js.truthy_str (tu_category_id updates) then
         (* Verify category exists *)
         c ← await_db (Pg.select_category_id (default "" (tu_category_id updates)));
         match data c with
         | None => throw CategoryNotFound
         | Some _ => mret tt
         end
       else mret tt);
  r ← await_db (Pg.update_transaction id updates);
  returning r present_tx.

Definition deleteTransaction (id : string) : Async unit :=
  r ← await_db (Pg.delete_transaction id);
  match error r with
  | Some e => throw (PostgrestError e)
  | None => mret tt
  end.

(** A request that returns one object: when it answers with an error it
    has changed nothing, and otherwise it carries the object. *)
Definition sound_write {A : Type} (srv : Db → Response A * Db) : Prop :=
  ∀ d, (error (srv d).1 = None → is_Some (data (srv d).1))
       ∧ (error (srv d).1 ≠ None → (srv d).2 = d).

(** ** [lib/utils.js] *)

Definition months : list string :=
  ["January"; "February"; "March"; "April"; "May"; "June";
   "July"; "August"; "September"; "October"; "November"; "December"].

(** [months[month - 1]]; [None] is [undefined]. *)
Definition getMonthName (month : Z) : option string :=
  if decide (0 ≤ month - 1) then months !! Z.to_nat (month - 1) else None.

(** ** The month selector and the dashboard *)

(** [handlePrevMonth] and [handleNextMonth] of [MonthSelector]: the month
    and the year the two callbacks are left with. *)
Definition handlePrevMonth (month year : Z) : Z * Z :=
  if decide (month = 1) then (12, year - 1) else (month - 1, year).

Definition handleNextMonth (month year : Z) : Z * Z :=
  if decide (month = 12) then (1, year + 1) else (month + 1, year).

(** [transactions.slice(0, 5)] *)
Definition recentTransactions (transactions : list Transaction) : list Transaction :=
  take 5 transactions.

(** [budgetStatus.filter(b => b.budget_limit > 0)]: the budgets the
    dashboard draws a bar for. *)
Definition shown_budgets (budgetStatus : list BudgetStatusEntry)
    : list BudgetStatusEntry :=
  filter (λ b, Js.gt (bs_budget_limit b) 0%Q = true) budgetStatus.

(** The value of the bar and the amount of the 'Over by' line. *)
Definition progress_value (budget : BudgetStatusEntry) : Q :=
  Js.min (bs_percentage budget) 100%Q.

Definition over_by (budget : BudgetStatusEntry) : Q :=
  (bs_spent budget - bs_budget_limit budget)%Q.


(** ** [getBudgetStatus] and the budget colours over binary64

    [getBudgetStatus] decides [over_budget] by comparing two numbers, and
    the colour of a budget bar is decided on its [percentage]: these
    results depend on the rounding of every operation.  Here the numbers
    are what they are in JavaScript, IEEE 754 binary64 values
    ([PrimFloat.float]), and [+], [-], [*], [/], [>] and [>=] are the
    binary64 operations.  The rows are those of the database above: the
    decimal of a numeric column reaches the function as the binary64
    number nearest to it. *)

Module B64.
Import PrimFloat.

(** The binary64 number nearest to a decimal, ties to even: what
    [JSON.parse], and [parseFloat] after it, make of a numeric column.
    The quotient of the two integers is rounded once. *)
Definition parseFloat (x : Q) : float :=
  let den := SpecFloat.S754_finite false (Qden x) 0 in
  match Qnum x with
  | Z0 => zero
  | Zpos n =>
      FloatOps.SF2Prim
        (SpecFloat.SFdiv FloatOps.prec FloatOps.emax
           (SpecFloat.S754_finite false n 0) den)
  | Zneg n =>
      FloatOps.SF2Prim
        (SpecFloat.SFdiv FloatOps.prec FloatOps.emax
           (SpecFloat.S754_finite true n 0) den)
  end.

(** [parseFloat(null)] is NaN. *)
Definition parseFloat_opt (x : option Q) : float :=
  match x with
  | Some q => parseFloat q
  | None => nan
  end.

(** [!x] is true for [0], [-0] and [NaN]. *)
Definition truthy (x : float) : bool := negb (is_zero x || is_nan x).

(** [x || d] on numbers. *)
Definition num_or (x d : float) : float := if truthy x then x else d.

(** [o || d] where [o] may be [undefined]. *)
Definition opt_num_or (o : option float) (d : float) : float :=
  match o with
  | Some x => num_or x d
  | None => d
  end.

(** [!obj[k]], true also when the property is missing. *)
Definition opt_truthy (o : option float) : bool :=
  match o with
  | Some x => truthy x
  | None => false
  end.

(** [a > b] and [a >= b]: false when either is NaN. *)
Definition gt (a b : float) : bool := (b <? a)%float.

(** [-0], which [Math.max] and [Math.min] tell from [0]. *)
Definition is_neg_zero (x : float) : bool := is_zero x && get_sign x.

(** [Math.max(a, b)] and [Math.min(a, b)]: NaN when either is NaN, and
    [0] counts as larger than [-0]. *)
Definition max (a b : float) : float :=
  if is_nan a || is_nan b then nan
  else if (a <? b)%float then b
  else if (b <? a)%float then a
  else if is_neg_zero a then b else a.

Definition min (a b : float) : float :=
  if is_nan a || is_nan b then nan
  else if (b <? a)%float then b
  else if (a <? b)%float then a
  else if is_neg_zero a then a else b.

Record BudgetStatusEntry := mkBudgetStatusEntry {
  bs_category_id : string;
  bs_category_name : string;
  bs_budget_limit : float;
  bs_spent : float;
  bs_remaining : float;
  bs_percentage : float;
  bs_over_budget : bool;
  bs_color : string
}.

(** One turn of [transactions.forEach(tx => ...)] in [getBudgetStatus]. *)
Definition spending_step (spendingMap : gmap string float)
    (tx : Transaction) : gmap string float :=
  let k := tx_category_id tx in
  let spendingMap :=
    if negb (opt_truthy (spendingMap !! k)) then <[k := 0%float]> spendingMap
    else spendingMap in
  <[k := (default 0 (spendingMap !! k) + parseFloat (tx_amount tx))%float]>
    spendingMap.

(** The callback of [categories.map] in [getBudgetStatus]. *)
Definition budget_entry (spendingMap : gmap string float)
    (cat : Category) : BudgetStatusEntry :=
  let spent := opt_num_or (spendingMap !! cat_id cat) 0 in
  let budgetLimit := num_or (parseFloat_opt (cat_budget_limit cat)) 0 in
  let percentage :=
    if gt budgetLimit 0 then (spent / budgetLimit * 100)%float else 0%float in
  mkBudgetStatusEntry
    (cat_id cat)
    (cat_name cat)
    budgetLimit
    spent
    (max 0 (budgetLimit - spent))
    (min percentage 100)
    (gt budgetLimit 0 && gt spent budgetLimit)
    (cat_color cat).

Definition getBudgetStatus (month year : Z) : Async (list BudgetStatusEntry) :=
  let startDate := startDate month year in
  let endDate := endDate month year in
  (* Get expense categories *)
  r1 ← send (SelectCategories (Cat.eq_type "expense" Cat.select));
  (* Get spending by category *)
  r2 ← send (SelectTransactions
               (Tx.lt_date endDate
                  (Tx.gte_date startDate (Tx.eq_type "expense" Tx.select))));
  transactions ← deref (data r2);
  let spendingMap := foldl spending_step ∅ transactions in
  categories ← deref (data r1);
  mret (budget_entry spendingMap <$> categories).

(** [getBudgetStatus] on a database that holds the two lists and serves
    every request. *)
Definition budgetStatus (txs : list Transaction) (cats : list Category)
    (month year : Z) : Result (list BudgetStatusEntry) :=
  result_of (getBudgetStatus month year) (mkDb cats txs false).



(** The two statements the loop runs on [spendingMap[k]] for one amount:
    it is added to the total so far, and a total so far that is zero or
    NaN counts as 0. *)
Definition add_amount (total amount : float) : float :=
  (num_or total 0 + amount)%float.

(** What [spendingMap[k]] holds after the loop has met the amounts of the
    category [k] in this order. *)
Definition running_total (amounts : list float) : float :=
  foldl add_amount 0%float amounts.

(** The binary64 sum of a list of numbers, added from left to right. *)
Definition sum (amounts : list float) : float :=
  foldl (λ total amount, (total + amount)%float) 0%float amounts.

(** The total before each amount is added, starting from [total]. *)
Fixpoint totals_so_far (total : float) (amounts : list float) : list float :=
  match amounts with
  | [] => []
  | amount :: amounts' =>
      total :: totals_so_far (total + amount)%float amounts'
  end.

End B64.

(** Sample rows: 0.10 and 0.20 spent on a budget of 0.30. *)
Definition snacks : Category :=
  mkCategory "c2" "Snacks" "expense" (Some (3 # 10)) "#81B29A" "2025-01-01".

Definition coffee : Transaction :=
  mkTransaction "t3" "expense" (1 # 10) "c2" None (mkDate 2025 6 3) "2025-06-03".

Definition bagel : Transaction :=
  mkTransaction "t4" "expense" (2 # 10) "c2" None (mkDate 2025 6 4) "2025-06-04".



(** * Properties *)

(** ** Exact sums *)

Section Sums.

Lemma Qsum_cons x l : Qsum (x :: l) = (x + Qsum l)%Q.
Proof. reflexivity. Qed.


(** A [reduce] that adds one field of every element to the running sum. *)
Lemma foldl_add_field {A : Type} (f g : A → Q) (a : Q) (l : list A) :
  (∀ x, (g x == f x)%Q) →
  (foldl (λ sum m, (sum + g m)%Q) a l == a + Qsum (f <$> l))%Q.
Proof.
  intros Hg. revert a. induction l as [|x l IH]; intros a.
  - change (a == a + 0)%Q. ring.
  - change (foldl (λ sum m, (sum + g m)%Q) (a + g x)%Q l
            == a + Qsum (f x :: (f <$> l)))%Q.
    rewrite IH, Qsum_cons, Hg. ring.
Qed.

Context (P : Transaction → Prop) `{∀ t, Decision (P t)}.



End Sums.

(** A number and its [|| 0] are the same number. *)
Lemma num_or_0 x : (Js.num_or x 0 == x)%Q.
Proof.
  unfold Js.num_or, Js.truthy.
  destruct (Qeq_bool x 0) eqn:E; simpl; [|reflexivity].
  symmetry. by apply Qeq_bool_eq.
Qed.

Lemma opt_num_or_0 o : (Js.opt_num_or o 0 == default 0%Q o)%Q.
Proof. destruct o; simpl; [apply num_or_0 | reflexivity]. Qed.


Lemma gt_spec a b : Js.gt a b = true ↔ (b < a)%Q.
Proof.
  unfold Js.gt. rewrite (Qgt_alt a b).
  destruct (a ?= b)%Q; split; congruence.
Qed.

(** ** Objects keyed by id *)

Section Objects.

Implicit Types (o : list (string * Q)) (k : string) (v a : Q).











End Objects.

(** ** The Period query and the classes of transactions *)

Lemma run_period_query month year rows :
  run_tx_query
    (Tx.lt_date (endDate month year)
       (Tx.gte_date (startDate month year) Tx.select)) rows
  = period_of month year rows.
Proof.
  unfold run_tx_query, period_of. simpl. apply list_filter_iff. intros t.
  rewrite Forall_cons, Forall_singleton. reflexivity.
Qed.

Lemma run_expense_period_query month year rows :
  run_tx_query
    (Tx.lt_date (endDate month year)
       (Tx.gte_date (startDate month year) (Tx.eq_type "expense" Tx.select)))
    rows
  = filter is_expense (period_of month year rows).
Proof.
  unfold run_tx_query, period_of. simpl. rewrite list_filter_filter.
  apply list_filter_iff. intros t.
  rewrite !Forall_cons, Forall_nil. unfold is_expense, in_period. simpl. tauto.
Qed.

Lemma run_cat_select cats : run_cat_query Cat.select cats = cats.
Proof.
  unfold run_cat_query. simpl. induction cats as [|c cats IH]; [done|].
  rewrite filter_cons_True by constructor. by rewrite IH.
Qed.

Lemma run_cat_expense cats :
  run_cat_query (Cat.eq_type "expense" Cat.select) cats
  = filter (λ c, cat_type c = "expense") cats.
Proof.
  unfold run_cat_query. simpl. apply list_filter_iff. intros c.
  by rewrite Forall_singleton.
Qed.




(** ** [getMonthlySummary] *)

Lemma monthly_step_income acc tx :
  totalIncome (monthly_step acc tx) = add_if is_income (totalIncome acc) tx.
Proof.
  unfold monthly_step, add_if, is_income.
  by destruct (decide (tx_type tx = "income")); [|destruct (decide (tx_type tx = "investment"))].
Qed.

Lemma monthly_step_investments acc tx :
  totalInvestments (monthly_step acc tx)
  = add_if is_investment (totalInvestments acc) tx.
Proof.
  unfold monthly_step, add_if, is_investment.
  destruct (decide (tx_type tx = "income")) as [Hi|Hi];
    destruct (decide (tx_type tx = "investment")) as [Hv|Hv]; try done.
  rewrite Hi in Hv. discriminate Hv.
Qed.

Lemma monthly_step_expenses acc tx :
  totalExpenses (monthly_step acc tx) = add_if is_other (totalExpenses acc) tx.
Proof.
  unfold monthly_step, add_if, is_other.
  destruct (decide (tx_type tx = "income")) as [Hi|Hi];
    destruct (decide (tx_type tx = "investment")) as [Hv|Hv];
    destruct (decide (_ ∧ _)) as [Ho|Ho]; try done; tauto.
Qed.

Lemma monthly_step_totals acc tx :
  categoryTotals (monthly_step acc tx) = bump_tx (categoryTotals acc) tx.
Proof.
  unfold monthly_step, bump_tx, Obj_bump.
  by destruct (decide (tx_type tx = "income")); [|destruct (decide (tx_type tx = "investment"))].
Qed.

Lemma foldl_project {S B X : Type} (step : S → X → S) (pstep : B → X → B)
    (proj : S → B) :
  (∀ s x, proj (step s x) = pstep (proj s) x) →
  ∀ l s, proj (foldl step s l) = foldl pstep (proj s) l.
Proof.
  intros Hstep l. induction l as [|x l IH]; intros s; [done|].
  simpl. by rewrite IH, Hstep.
Qed.

Lemma monthlySummary_run txs cats month year :
  monthlySummary txs cats month year
  = Ok (mkMonthlySummary month year
          (foldl (add_if is_income) 0%Q (period_of month year txs))
          (foldl (add_if is_other) 0%Q (period_of month year txs))
          (foldl (add_if is_investment) 0%Q (period_of month year txs))
          (foldl (add_if is_income) 0%Q (period_of month year txs)
           - foldl (add_if is_other) 0%Q (period_of month year txs))%Q
          (breakdown_entry (build_catMap cats)
             <$> foldl bump_tx [] (period_of month year txs))).
Proof.
  unfold monthlySummary, result_of, getMonthlySummary.
  unfold mbind, Async_bind, send, healthy. simpl outages. cbv iota.
  unfold serve. simpl db. cbv iota. simpl data. unfold deref.
  unfold mret, Async_ret. cbv beta iota. simpl fst.
  rewrite run_period_query, run_cat_select. simpl transactions. simpl categories.
  rewrite (foldl_project _ _ totalIncome monthly_step_income).
  rewrite (foldl_project _ _ totalExpenses monthly_step_expenses).
  rewrite (foldl_project _ _ totalInvestments monthly_step_investments).
  unfold Obj.entries.
  rewrite (foldl_project _ _ categoryTotals monthly_step_totals).
  reflexivity.
Qed.







(** ** [getYearlySummary] *)

Lemma yearly_step_income acc tx :
  income (yearly_step acc tx) = add_if is_income (income acc) tx.
Proof.
  unfold yearly_step, add_if, is_income.
  by destruct (decide (tx_type tx = "income")); [|destruct (decide (tx_type tx = "investment"))].
Qed.

Lemma yearly_step_investments acc tx :
  investments (yearly_step acc tx) = add_if is_investment (investments acc) tx.
Proof.
  unfold yearly_step, add_if, is_investment.
  destruct (decide (tx_type tx = "income")) as [Hi|Hi];
    destruct (decide (tx_type tx = "investment")) as [Hv|Hv]; try done.
  rewrite Hi in Hv. discriminate Hv.
Qed.

Lemma yearly_step_expenses acc tx :
  expenses (yearly_step acc tx) = add_if is_other (expenses acc) tx.
Proof.
  unfold yearly_step, add_if, is_other.
  destruct (decide (tx_type tx = "income")) as [Hi|Hi];
    destruct (decide (tx_type tx = "investment")) as [Hv|Hv];
    destruct (decide (_ ∧ _)) as [Ho|Ho]; try done; tauto.
Qed.

Lemma yearly_loop_run year months : ∀ monthlyData d s,
  ∃ s', yearly_loop year months monthlyData (mkWorld d [] s)
        = (Ok (monthlyData ++ (month_entry (transactions d) year <$> months)),
           mkWorld d [] s').
Proof.
  induction months as [|month months IH]; intros monthlyData d s.
  - exists s. simpl. by rewrite app_nil_r.
  - simpl. unfold mbind, Async_bind, send. simpl.
    rewrite run_period_query.
    rewrite (foldl_project _ _ income yearly_step_income).
    rewrite (foldl_project _ _ expenses yearly_step_expenses).
    rewrite (foldl_project _ _ investments yearly_step_investments).
    simpl.
    destruct (IH (monthlyData ++ [month_entry (transactions d) year month]) d
                 (s ++ [existT _ (SelectTransactions
                     (Tx.lt_date (endDate month year)
                        (Tx.gte_date (startDate month year) Tx.select)))]))
      as [s' Hs'].
    exists s'. unfold month_entry in Hs' at 1. rewrite Hs'.
    by rewrite <- app_assoc.
Qed.

Lemma yearlySummary_run txs year :
  yearlySummary txs year
  = Ok (let monthlyData := month_entry txs year <$> seqZ 1 12 in
        mkYearlySummary year monthlyData
          (foldl (λ sum m, (sum + me_income m)%Q) 0%Q monthlyData)
          (foldl (λ sum m, (sum + me_expenses m)%Q) 0%Q monthlyData)
          (foldl (λ sum m, (sum + Js.num_or (me_investments m) 0)%Q) 0%Q
             monthlyData)).
Proof.
  unfold yearlySummary, result_of, getYearlySummary, healthy.
  unfold mbind, Async_bind.
  destruct (yearly_loop_run year (seqZ 1 12) [] (mkDb [] txs false) []) as [s' ->].
  reflexivity.
Qed.

Lemma filter_none {A : Type} (P : A → Prop) `{∀ x, Decision (P x)} (l : list A) :
  (∀ x, x ∈ l → ¬ P x) → filter P l = [].
Proof.
  induction l as [|x l IH]; intros Hl; [done|].
  rewrite filter_cons_False; [apply IH|].
  - intros y Hy. apply Hl, elem_of_cons. by right.
  - apply Hl, elem_of_cons. by left.
Qed.

(** C4. [yearlySummary] returns twelve monthly entries, for the months
    1 to 12 in that order; the entry of a month without transactions is
    all zero; and each yearly total is the sum of its field over the
    twelve entries. *)
Theorem yearlySummary_twelve_months txs year :
  ∃ ys, yearlySummary txs year = Ok ys
    ∧ length (ys_monthly_data ys) = 12%nat
    ∧ me_month <$> ys_monthly_data ys = [1; 2; 3; 4; 5; 6; 7; 8; 9; 10; 11; 12]
    ∧ (∀ e, e ∈ ys_monthly_data ys →
         (∀ t, t ∈ txs → ¬ in_period (me_month e) year (tx_date t)) →
         e = mkMonthEntry (me_month e) 0%Q 0%Q 0%Q 0%Q)
    ∧ (ys_total_income ys == Qsum (me_income <$> ys_monthly_data ys))%Q
    ∧ (ys_total_expenses ys == Qsum (me_expenses <$> ys_monthly_data ys))%Q
    ∧ (ys_total_investments ys == Qsum (me_investments <$> ys_monthly_data ys))%Q.
Proof.
  eexists. split; [apply yearlySummary_run|]. cbv zeta.
  unfold ys_monthly_data, ys_total_income, ys_total_expenses, ys_total_investments.
  split_and!.
  - by rewrite length_fmap, length_seqZ.
  - rewrite <- list_fmap_compose. reflexivity.
  - intros e He Hempty. apply list_elem_of_fmap in He as (m & -> & _).
    simpl in Hempty. unfold month_entry.
    rewrite (filter_none _ txs Hempty : period_of m year txs = []). reflexivity.
  - rewrite (foldl_add_field me_income); [ring | reflexivity].
  - rewrite (foldl_add_field me_expenses); [ring | reflexivity].
  - rewrite (foldl_add_field me_investments); [ring|].
    intros m. apply num_or_0.
Qed.

(** ** [getBudgetStatus] *)

Lemma budgetStatus_run txs cats month year :
  budgetStatus txs cats month year
  = Ok (budget_entry
          (foldl spending_step ∅ (filter is_expense (period_of month year txs)))
          <$> filter (λ c, cat_type c = "expense") cats).
Proof.
  unfold budgetStatus, result_of, getBudgetStatus.
  unfold mbind, Async_bind, send, healthy. simpl outages. cbv iota.
  unfold serve. simpl db. cbv iota. simpl data. unfold deref.
  unfold mret, Async_ret. cbv beta iota. simpl fst.
  by rewrite run_expense_period_query, run_cat_expense.
Qed.

(** *** The function over binary64 *)

Section Binary64.
Import PrimFloat.

(** The numbers of JavaScript the rationals do not have. *)
Example b64_falsy :
  B64.truthy 0 = false ∧ B64.truthy (-0) = false ∧ B64.truthy nan = false
  ∧ B64.truthy (B64.parseFloat (1 # 100)) = true.
Proof. vm_compute. done. Qed.

Example b64_max_min :
  B64.max 0 (-0) = 0%float ∧ B64.max (-0) 0 = 0%float
  ∧ B64.min 0 (-0) = (-0)%float ∧ B64.min (-0) 0 = (-0)%float
  ∧ B64.max 0 (-1) = 0%float ∧ B64.max 0 2 = 2%float
  ∧ B64.min 120 100 = 100%float ∧ B64.min 75 100 = 75%float
  ∧ is_nan (B64.max 0 nan) = true ∧ is_nan (B64.min nan 100) = true.
Proof. vm_compute. done. Qed.

(** Decimals as binary64 numbers: 0.1 + 0.2 is above 0.3. *)
Example b64_parseFloat :
  B64.parseFloat (15 # 10) = 1.5%float
  ∧ B64.parseFloat (-25 # 100) = (-0.25)%float
  ∧ B64.parseFloat (0 # 7) = 0%float
  ∧ is_nan (B64.parseFloat_opt None) = true
  ∧ (B64.parseFloat (3 # 10)
     <? B64.parseFloat (1 # 10) + B64.parseFloat (2 # 10))%float = true
  ∧ (B64.parseFloat (1 # 100) + B64.parseFloat (2 # 100)
     =? B64.parseFloat (3 # 100))%float = true.
Proof. vm_compute. done. Qed.

Lemma b64_num_or_idem x : B64.num_or (B64.num_or x 0) 0 = B64.num_or x 0.
Proof.
  unfold B64.num_or. destruct (B64.truthy x) eqn:E; [by rewrite E|].
  by destruct (B64.truthy 0).
Qed.

Lemma b64_opt_num_or_idem o :
  B64.num_or (B64.opt_num_or o 0) 0 = B64.opt_num_or o 0.
Proof.
  destruct o as [x|]; simpl; [apply b64_num_or_idem|].
  unfold B64.num_or. by destruct (B64.truthy 0).
Qed.

Lemma b64_foldl_add_num_or s l :
  B64.num_or (foldl B64.add_amount (B64.num_or s 0) l) 0
  = B64.num_or (foldl B64.add_amount s l) 0.
Proof.
  destruct l as [|a l]; simpl; [apply b64_num_or_idem|].
  unfold B64.add_amount at 2 4. by rewrite b64_num_or_idem.
Qed.

Lemma b64_spending_step_lookup_eq (m : gmap string float) t :
  B64.spending_step m t !! tx_category_id t
  = Some (B64.add_amount (B64.opt_num_or (m !! tx_category_id t) 0)
            (B64.parseFloat (tx_amount t))).
Proof.
  unfold B64.spending_step, B64.add_amount. rewrite lookup_insert_eq.
  rewrite b64_opt_num_or_idem.
  destruct (m !! tx_category_id t) as [v|] eqn:E; simpl.
  - unfold B64.num_or. destruct (B64.truthy v); simpl.
    + by rewrite E.
    + by rewrite lookup_insert_eq.
  - by rewrite lookup_insert_eq.
Qed.

Lemma b64_spending_step_lookup_ne (m : gmap string float) t k :
  tx_category_id t ≠ k → B64.spending_step m t !! k = m !! k.
Proof.
  intros Hne. unfold B64.spending_step. rewrite lookup_insert_ne by done.
  destruct (negb _); [by apply lookup_insert_ne | done].
Qed.

(** After the loop, [spendingMap[k] || 0] is the running total of the
    amounts of the transactions of [k], in the order of the rows. *)
Lemma b64_foldl_spending_lookup (m : gmap string float) l k :
  B64.opt_num_or (foldl B64.spending_step m l !! k) 0
  = B64.num_or
      (foldl B64.add_amount (B64.opt_num_or (m !! k) 0)
         (B64.parseFloat <$> amounts (filter (in_category k) l))) 0.
Proof.
  revert m. induction l as [|t l IH]; intros m.
  - simpl. by rewrite b64_opt_num_or_idem.
  - change (foldl B64.spending_step m (t :: l))
      with (foldl B64.spending_step (B64.spending_step m t) l).
    rewrite IH, filter_cons.
    destruct (decide (in_category k t)) as [Hk|Hk]; unfold in_category in Hk.
    + subst k. rewrite b64_spending_step_lookup_eq. simpl.
      apply b64_foldl_add_num_or.
    + by rewrite b64_spending_step_lookup_ne.
Qed.

Lemma b64_running_total_sum s l :
  Forall (λ total, B64.num_or total 0 = total) (B64.totals_so_far s l) →
  foldl B64.add_amount s l = foldl (λ total amount, total + amount)%float s l.
Proof.
  revert s. induction l as [|a l IH]; intros s Hkept; [done|].
  simpl in *. apply Forall_cons in Hkept as [Hs Hl].
  unfold B64.add_amount at 2. rewrite Hs. by apply IH.
Qed.

Lemma b64_budgetStatus_run txs cats month year :
  B64.budgetStatus txs cats month year
  = Ok (B64.budget_entry
          (foldl B64.spending_step ∅
             (filter is_expense (period_of month year txs)))
          <$> filter (λ c, cat_type c = "expense") cats).
Proof.
  unfold B64.budgetStatus, result_of, B64.getBudgetStatus.
  unfold mbind, Async_bind, send, healthy. simpl outages. cbv iota.
  unfold serve. simpl db. cbv iota. simpl data. unfold deref.
  unfold mret, Async_ret. cbv beta iota. simpl fst.
  by rewrite run_expense_period_query, run_cat_expense.
Qed.

(** C1 (as amended).  [budgetStatus] returns one entry per category of type
    'expense', whatever its budget_limit, and none for any other category.
    The numbers of an entry are binary64 numbers.  budget_limit is the
    binary64 number nearest to the category's limit (0 for no limit).
    spent is the running binary64 total of the amounts (each the binary64
    number nearest to the decimal) of the transactions of type 'expense' of
    that category in the Period, added one by one in the order of the
    rows, where a total that is zero or NaN counts as 0 (0 when there are
    none); when no total on the way is NaN or -0, this is their binary64
    sum from left to right.  remaining is Math.max(0, budget_limit -
    spent), percentage is Math.min(spent / budget_limit * 100, 100) when
    budget_limit > 0 and 0 otherwise, every operation rounded to binary64,
    and over_budget holds exactly when budget_limit > 0 and spent >
    budget_limit as binary64 numbers. *)
Theorem budgetStatus_entries_binary64 txs cats month year :
  ∃ es, B64.budgetStatus txs cats month year = Ok es
    ∧ Forall2 (λ c e,
        let limit := B64.bs_budget_limit e in
        let spent := B64.bs_spent e in
        let paid :=
          B64.parseFloat
            <$> amounts (filter (λ t, tx_type t = "expense"
                                      ∧ tx_category_id t = cat_id c
                                      ∧ in_period month year (tx_date t)) txs) in
        B64.bs_category_id e = cat_id c
        ∧ limit = B64.num_or (B64.parseFloat_opt (cat_budget_limit c)) 0
        ∧ spent = B64.num_or (B64.running_total paid) 0
        ∧ (Forall (λ total, B64.num_or total 0 = total)
             (B64.totals_so_far 0 paid) →
           spent = B64.num_or (B64.sum paid) 0)
        ∧ B64.bs_remaining e = B64.max 0 (limit - spent)
        ∧ ((0 <? limit)%float = true →
           B64.bs_percentage e = B64.min (spent / limit * 100) 100)
        ∧ ((0 <? limit)%float = false → B64.bs_percentage e = 0%float)
        ∧ (B64.bs_over_budget e = true
           ↔ (0 <? limit)%float = true ∧ (limit <? spent)%float = true))
      (filter (λ c, cat_type c = "expense") cats) es.
Proof.
  eexists. split; [apply b64_budgetStatus_run|].
  apply Forall2_fmap_r, Forall_Forall2_diag, Forall_true. intros c.
  set (m := foldl B64.spending_step ∅
              (filter is_expense (period_of month year txs))).
  assert (Hspent : B64.opt_num_or (m !! cat_id c) 0
    = B64.num_or
        (B64.running_total
           (B64.parseFloat
              <$> amounts (filter (λ t, tx_type t = "expense"
                                        ∧ tx_category_id t = cat_id c
                                        ∧ in_period month year (tx_date t)) txs)))
        0).
  { unfold m. rewrite b64_foldl_spending_lookup, lookup_empty.
    unfold period_of. rewrite !list_filter_filter.
    assert (Hf : filter (λ t, (in_category (cat_id c) t ∧ is_expense t)
                              ∧ in_period month year (tx_date t)) txs
                 = filter (λ t, tx_type t = "expense" ∧ tx_category_id t = cat_id c
                                ∧ in_period month year (tx_date t)) txs).
    { apply list_filter_iff. intros t. unfold in_category, is_expense. tauto. }
    by rewrite Hf. }
  unfold B64.budget_entry. simpl. rewrite Hspent.
  split_and!.
  - reflexivity.
  - reflexivity.
  - reflexivity.
  - intros Hkept. unfold B64.running_total, B64.sum.
    by rewrite <- (b64_running_total_sum _ _ Hkept).
  - reflexivity.
  - intros Hpos. unfold B64.gt. by rewrite Hpos.
  - intros Hnpos. unfold B64.gt. rewrite Hnpos. reflexivity.
  - unfold B64.gt. rewrite andb_true_iff. reflexivity.
Qed.

(** C1 as stated fails: with 0.10 and 0.20 spent on a budget of 0.30, the
    amounts add up to the limit exactly, and yet the entry is over budget
    and its spent is not the number 0.30. *)
Lemma budgetStatus_exact_sum_counterexample :
  ∃ e, B64.budgetStatus [coffee; bagel] [snacks] 6 2025 = Ok [e]
    ∧ (Qsum (amounts (filter (λ t, tx_type t = "expense"
                                   ∧ tx_category_id t = cat_id snacks
                                   ∧ in_period 6 2025 (tx_date t))
                        [coffee; bagel]))
       == default 0 (cat_budget_limit snacks))%Q
    ∧ B64.bs_budget_limit e = B64.parseFloat (3 # 10)
    ∧ B64.bs_spent e ≠ B64.parseFloat (3 # 10)
    ∧ B64.bs_over_budget e = true.
Proof.
  eexists. split; [vm_compute; reflexivity|]. simpl. split_and!.
  - vm_compute. reflexivity.
  - vm_compute. reflexivity.
  - intros Heq.
    apply (f_equal (λ x, (x =? B64.parseFloat (3 # 10))%float)) in Heq.
    vm_compute in Heq. discriminate Heq.
  - vm_compute. reflexivity.
Qed.

(** Scenario A over binary64: a budget of 100 overspent by 50. *)
Example scenario_A_binary64 :
  B64.budgetStatus [lunch] [groceries] 6 2025
  = Ok [B64.mkBudgetStatusEntry "c1" "Groceries" 100 150 0 100 true "#E07A5F"].
Proof. vm_compute. reflexivity. Qed.

End Binary64.

(** ** Monthly summary against budget status *)







(** ** [deleteCategory] *)

Lemma run_count_query id rows :
  run_tx_query (Tx.eq_category_id id Tx.select) rows = filter (references id) rows.
Proof.
  unfold run_tx_query. simpl. apply list_filter_iff. intros t.
  by rewrite Forall_singleton.
Qed.

Lemma gt0_count id rows :
  Js.gt0 (Some (length (filter (references id) rows))) = true
  ↔ Exists (references id) rows.
Proof.
  simpl. rewrite bool_decide_eq_true. rewrite Exists_exists.
  induction rows as [|t rows IH].
  - simpl. split; [lia|]. intros (t & Ht & _). by apply elem_of_nil in Ht.
  - rewrite filter_cons. destruct (decide (references id t)) as [Hr|Hr].
    + simpl. split; [|lia]. intros _. exists t. split; [apply elem_of_cons; by left | done].
    + rewrite IH. split.
      * intros (t' & Ht' & Hr'). exists t'. split; [apply elem_of_cons; by right | done].
      * intros (t' & Ht' & Hr'). apply elem_of_cons in Ht' as [->|Ht']; [done|].
        by exists t'.
Qed.

(** [deleteCategory] when the count request is served. *)
Lemma deleteCategory_counted id w :
  ¬ next_request_fails w →
  deleteCategory id w
  = if bool_decide (Exists (references id) (transactions (db w)))
    then (Throw HasDependents,
          mkWorld (db w) (tail (outages w)) (sent w ++ [count_request id]))
    else (r' ← send (DeleteCategory id);
          match error r' with
          | Some e => throw (PostgrestError e)
          | None => mret tt
          end)
           (mkWorld (db w) (tail (outages w)) (sent w ++ [count_request id])).
Proof.
  intros Hserved. unfold deleteCategory at 1. unfold mbind at 1, Async_bind at 1.
  assert (Hsend : send (CountTransactions (Tx.eq_category_id id Tx.select)) w
    = (Ok (mkResponse None None
             (Some (length (filter (references id) (transactions (db w)))))),
       mkWorld (db w) (tail (outages w)) (sent w ++ [count_request id]))).
  { unfold send. destruct (outages w) as [|[msg|] rest] eqn:E; simpl.
    - by rewrite run_count_query.
    - destruct Hserved. by exists msg, rest.
    - by rewrite run_count_query. }
  rewrite Hsend. cbv beta iota. unfold count.
  destruct (bool_decide (Exists (references id) (transactions (db w)))) eqn:Hex.
  - apply bool_decide_eq_true in Hex. apply gt0_count in Hex. by rewrite Hex.
  - apply bool_decide_eq_false in Hex.
    destruct (Js.gt0 _) eqn:Hgt; [|done].
    apply gt0_count in Hgt. by destruct Hex.
Qed.

(** [deleteCategory] when the count request fails. *)
Lemma deleteCategory_uncounted id w msg rest :
  outages w = Some msg :: rest →
  deleteCategory id w
  = (r' ← send (DeleteCategory id);
     match error r' with
     | Some e => throw (PostgrestError e)
     | None => mret tt
     end) (mkWorld (db w) rest (sent w ++ [count_request id])).
Proof.
  intros E. unfold deleteCategory at 1. unfold mbind at 1, Async_bind at 1.
  unfold send at 1. by rewrite E.
Qed.

(** What the second half of [deleteCategory] does: the delete request is
    sent, and the outcome is never the HasDependents error. *)
Lemma delete_attempted id w :
  ∃ r w', (r' ← send (DeleteCategory id);
           match error r' with
           | Some e => throw (PostgrestError e)
           | None => mret tt
           end) w = (r, w')
    ∧ r ≠ Throw HasDependents
    ∧ sent w' = sent w ++ [delete_request id].
Proof.
  unfold mbind, Async_bind, send, serve.
  destruct (outages w) as [|[msg|] rest];
    try destruct (fk_restrict (db w) && bool_decide _); simpl;
    eexists _, _; (split; [reflexivity|]); split; done.
Qed.

Lemma all_served_next w : all_served w → ¬ next_request_fails w.
Proof.
  intros Hall (msg & rest & E). unfold all_served in Hall. rewrite E in Hall.
  apply Forall_cons in Hall as [Hmsg _]. discriminate Hmsg.
Qed.

Lemma all_served_tail w : all_served w → Forall (λ o, o = None) (tail (outages w)).
Proof.
  unfold all_served. destruct (outages w) as [|o rest]; [done|].
  intros Hall. by apply Forall_cons in Hall as [_ ?].
Qed.

(** C6 (as amended). When the requests reach the database:
    [deleteCategory id] fails with HasDependents whenever a transaction
    references [id], after the count request and without a delete request,
    and leaves both tables as they were; when no transaction references
    [id] it sends the delete request after the count request and the
    category is deleted. *)
Theorem deleteCategory_blocked_when_referenced id w :
  all_served w →
  (Exists (references id) (transactions (db w)) →
     ∃ w', deleteCategory id w = (Throw HasDependents, w')
       ∧ db w' = db w
       ∧ sent w' = sent w ++ [count_request id])
  ∧ (¬ Exists (references id) (transactions (db w)) →
     ∃ w', deleteCategory id w = (Ok tt, w')
       ∧ categories (db w') = filter (λ c, cat_id c ≠ id) (categories (db w))
       ∧ transactions (db w') = transactions (db w)
       ∧ sent w' = sent w ++ [count_request id; delete_request id]).
Proof.
  intros Hall. rewrite (deleteCategory_counted id w (all_served_next w Hall)).
  split; intros Hex.
  - rewrite bool_decide_eq_true_2 by done. eexists. split; [reflexivity|]. done.
  - rewrite bool_decide_eq_false_2 by done.
    pose proof (all_served_tail w Hall) as Htail.
    unfold mbind, Async_bind, send, serve. simpl.
    rewrite bool_decide_eq_false_2, andb_false_r by done.
    destruct (tail (outages w)) as [|[msg|] rest]; simpl.
    + eexists. split; [reflexivity|]. simpl. by rewrite <- app_assoc.
    + apply Forall_cons in Htail as [Hmsg _]. discriminate Hmsg.
    + eexists. split; [reflexivity|]. simpl. by rewrite <- app_assoc.
Qed.

Lemma deleteCategory_blocked_when_referenced_witness :
  all_served (healthy (mkDb [groceries] [lunch] false))
  ∧ ∃ w', deleteCategory "c1" (healthy (mkDb [groceries] [lunch] false))
          = (Throw HasDependents, w')
      ∧ db w' = mkDb [groceries] [lunch] false
      ∧ sent w' = [count_request "c1"].
Proof.
  split; [constructor|].
  apply (deleteCategory_blocked_when_referenced "c1"
           (healthy (mkDb [groceries] [lunch] false))).
  - constructor.
  - apply Exists_cons_hd. reflexivity.
Defined.

(** C6 as stated fails: the count request is lost, the guard sees no count,
    and the referenced category is deleted (or, under the foreign key, the
    error raised is the one of the database, not HasDependents). *)
Lemma deleteCategory_guard_counterexample :
  Exists (references "c1") (transactions (db (offline_once false)))
  ∧ (deleteCategory "c1" (offline_once false)).1 = Ok tt
  ∧ categories (db (deleteCategory "c1" (offline_once false)).2) = []
  ∧ (deleteCategory "c1" (offline_once true)).1
    = Throw (PostgrestError "violates foreign key constraint")
  ∧ (deleteCategory "c1" (offline_once true)).1 ≠ Throw HasDependents.
Proof.
  split_and!.
  - apply Exists_cons_hd. reflexivity.
  - reflexivity.
  - reflexivity.
  - reflexivity.
  - discriminate.
Qed.

(** C10. The HasDependents guard fires only when the count request is
    answered with a count above zero; when that request fails, its answer
    carries no count, the guard does not fire, and the delete request is
    sent all the same. *)
Theorem deleteCategory_guard_needs_count id w :
  ((deleteCategory id w).1 = Throw HasDependents
   ↔ ¬ next_request_fails w ∧ Exists (references id) (transactions (db w)))
  ∧ (next_request_fails w →
     (deleteCategory id w).1 ≠ Throw HasDependents
     ∧ sent (deleteCategory id w).2
       = sent w ++ [count_request id; delete_request id]).
Proof.
  assert (Hfail : next_request_fails w →
     (deleteCategory id w).1 ≠ Throw HasDependents
     ∧ sent (deleteCategory id w).2
       = sent w ++ [count_request id; delete_request id]).
  { intros (msg & rest & E). rewrite (deleteCategory_uncounted id w msg rest E).
    destruct (delete_attempted id (mkWorld (db w) rest (sent w ++ [count_request id])))
      as (r & w' & -> & Hr & Hsent).
    simpl in *. split; [done|]. by rewrite Hsent, <- app_assoc. }
  split; [|done]. split.
  - intros Hthrow.
    assert (Hserved : ¬ next_request_fails w).
    { intros Hf. by destruct (Hfail Hf) as [Hne _]. }
    split; [done|]. rewrite (deleteCategory_counted id w Hserved) in Hthrow.
    destruct (bool_decide _) eqn:Hex; [by apply bool_decide_eq_true in Hex|].
    destruct (delete_attempted id
                (mkWorld (db w) (tail (outages w)) (sent w ++ [count_request id])))
      as (r & w' & Hrun & Hr & _).
    rewrite Hrun in Hthrow. by destruct Hr.
  - intros [Hserved Hex]. rewrite (deleteCategory_counted id w Hserved).
    by rewrite bool_decide_eq_true_2.
Qed.

Lemma deleteCategory_guard_needs_count_witness :
  next_request_fails (offline_once true)
  ∧ (deleteCategory "c1" (offline_once true)).1 ≠ Throw HasDependents
  ∧ sent (deleteCategory "c1" (offline_once true)).2
    = [count_request "c1"; delete_request "c1"].
Proof.
  split.
  - by exists "fetch failed", [].
  - apply (deleteCategory_guard_needs_count "c1" (offline_once true)).
    by exists "fetch failed", [].
Defined.

(** ** [getTransactions] *)

(** For a calendar month and calendar dates, the Period is the month. *)
Lemma in_period_calendar month year d :
  1 ≤ month ≤ 12 → calendar_date d →
  in_period month year d ↔ d_year d = year ∧ d_month d = month.
Proof.
  unfold calendar_date, in_period, date_le, date_lt, startDate, endDate,
    endYear, endMonth.
  intros Hm Hd. destruct (decide (month = 12)); simpl; lia.
Qed.

#[global] Instance not_older_total : Total not_older.
Proof. intros a b. unfold not_older, date_le. lia. Qed.

#[global] Instance not_older_trans : Transitive not_older.
Proof. intros a b c. unfold not_older, date_le. lia. Qed.

Lemma getTransactions_query_order args :
  tq_order_date_desc (getTransactions_query args) = true
  ∧ tq_limit (getTransactions_query args) = Some 1000%nat.
Proof.
  unfold getTransactions_query.
  destruct args as [[m|] [y|] ty cid]; simpl;
    repeat match goal with |- context [if ?b then _ else _] => destruct b end;
    done.
Qed.

Lemma getTransactions_query_period args month year :
  arg_month args = Some month → arg_year args = Some year →
  month ≠ 0 → year ≠ 0 →
  DateGte (startDate month year) ∈ tq_where (getTransactions_query args)
  ∧ DateLt (endDate month year) ∈ tq_where (getTransactions_query args).
Proof.
  intros Hm Hy Hm0 Hy0. unfold getTransactions_query. rewrite Hm, Hy. simpl.
  rewrite !bool_decide_eq_true_2 by done. simpl.
  destruct (Js.truthy_str (arg_type args)), (Js.truthy_str (arg_category_id args));
    simpl; split; set_solver.
Qed.

(** The rows a query with the ordering and a limit answers with. *)
Lemma run_tx_query_ordered q rows n :
  tq_order_date_desc q = true → tq_limit q = Some n →
  let matching := filter (λ t, Forall (tx_matches t) (tq_where q)) rows in
  StronglySorted not_older (run_tx_query q rows)
  ∧ length (run_tx_query q rows) = Nat.min n (length matching)
  ∧ ∀ t, t ∈ run_tx_query q rows → t ∈ rows ∧ Forall (tx_matches t) (tq_where q).
Proof.
  intros Hord Hlim matching. unfold run_tx_query. rewrite Hord, Hlim.
  fold matching. split_and!.
  - pose proof (StronglySorted_merge_sort not_older matching) as Hs.
    rewrite <- (take_drop n (merge_sort not_older matching)) in Hs.
    by apply StronglySorted_app_1_l in Hs.
  - by rewrite length_take, (Permutation_length (merge_sort_Permutation _ _)).
  - intros t Ht. apply subseteq_take in Ht.
    rewrite (merge_sort_Permutation not_older matching) in Ht.
    apply list_elem_of_filter in Ht. tauto.
Qed.

Lemma getTransactions_outcome args w :
  (next_request_fails w ∧ ∃ msg, (getTransactions args w).1 = Throw (PostgrestError msg))
  ∨ (¬ next_request_fails w
     ∧ (getTransactions args w).1
       = Ok (present_tx <$> run_tx_query (getTransactions_query args)
                              (transactions (db w)))).
Proof.
  unfold getTransactions, mbind, Async_bind, send, serve.
  destruct (outages w) as [|[msg|] rest] eqn:E; simpl.
  - right. split; [|done]. intros (? & ? & E'). unfold next_request_fails in *.
    rewrite E in E'. discriminate E'.
  - left. split; [by exists msg, rest | by exists msg].
  - right. split; [|done]. intros (? & ? & E'). rewrite E in E'. discriminate E'.
Qed.

(** C7. The list [getTransactions] returns is ordered by date, newest
    first, and holds the first 1000 matching rows at most; when the filter
    carries a month and a year, every transaction returned is dated from
    the first day of that month on and before the first day of the next
    month, which for month 12 is January 1 of the next year.  The list is
    returned whenever the request reaches the database. *)
Theorem getTransactions_ordered_capped_period args w :
  (¬ next_request_fails w → ∃ l, (getTransactions args w).1 = Ok l)
  ∧ ∀ l, (getTransactions args w).1 = Ok l →
      StronglySorted not_older l
      ∧ (length l ≤ 1000)%nat
      ∧ length l
        = Nat.min 1000
            (length (filter (λ t, Forall (tx_matches t)
                                    (tq_where (getTransactions_query args)))
                       (transactions (db w))))
      ∧ (∀ t, t ∈ l → ∃ row, row ∈ transactions (db w) ∧ t = present_tx row)
      ∧ ∀ month year,
          arg_month args = Some month → arg_year args = Some year →
          month ≠ 0 → year ≠ 0 →
          ∀ t, t ∈ l →
            date_le (mkDate year month 1) (tx_date t)
            ∧ date_lt (tx_date t)
                (if decide (month = 12) then mkDate (year + 1) 1 1
                 else mkDate year (month + 1) 1).
Proof.
  destruct (getTransactions_query_order args) as [Hord Hlim].
  destruct (run_tx_query_ordered (getTransactions_query args)
              (transactions (db w)) 1000 Hord Hlim) as (Hsorted & Hlen & Hin).
  destruct (getTransactions_outcome args w) as [[Hf [msg Hr]]|[Hs Hr]]; rewrite Hr.
  { split; [done | intros l Hl; discriminate Hl]. }
  split; [by eexists|]. intros l Hl. injection Hl as <-. split_and!.
  - revert Hsorted. by apply StronglySorted_fmap.
  - rewrite length_fmap, Hlen. lia.
  - by rewrite length_fmap, Hlen.
  - intros t Ht. apply list_elem_of_fmap in Ht as (row & -> & Hrow).
    exists row. split; [by apply Hin | done].
  - intros month year Hm Hy Hm0 Hy0 t Ht.
    apply list_elem_of_fmap in Ht as (row & -> & Hrow).
    apply Hin in Hrow as [_ Hall]. rewrite Forall_forall in Hall.
    destruct (getTransactions_query_period args month year Hm Hy Hm0 Hy0)
      as [Hge Hlt].
    apply Hall in Hge, Hlt. simpl in Hge, Hlt. split; [done|].
    unfold endDate, endYear, endMonth in Hlt. by destruct (decide (month = 12)).
Qed.

Lemma getTransactions_ordered_capped_period_witness :
  ∃ l, (getTransactions (mkTxListArgs (Some 6) (Some 2025) None None)
          (healthy (mkDb [groceries] [lunch; gift] false))).1 = Ok l
    ∧ StronglySorted not_older l
    ∧ ∀ t, t ∈ l →
        date_le (mkDate 2025 6 1) (tx_date t) ∧ date_lt (tx_date t) (mkDate 2025 7 1).
Proof.
  destruct (getTransactions_ordered_capped_period
              (mkTxListArgs (Some 6) (Some 2025) None None)
              (healthy (mkDb [groceries] [lunch; gift] false))) as [Hret Hprops].
  destruct Hret as [l Hl].
  { intros (msg & rest & E). discriminate E. }
  exists l. split; [exact Hl|].
  destruct (Hprops l Hl) as (Hsorted & _ & _ & _ & Hperiod).
  split; [exact Hsorted|].
  intros t Ht. apply (Hperiod 6 2025); [reflexivity | reflexivity | lia | lia | exact Ht].
Defined.

(** C8. With a month and no year, or a year and no month, [getTransactions]
    is the call with neither: its query carries no date filter, only the
    type and category_id filters that were given, the ordering by date,
    newest first, and the limit of 1000 rows. *)
Theorem getTransactions_half_period month year type category_id :
  getTransactions (mkTxListArgs (Some month) None type category_id)
  = getTransactions (mkTxListArgs None None type category_id)
  ∧ getTransactions (mkTxListArgs None (Some year) type category_id)
    = getTransactions (mkTxListArgs None None type category_id)
  ∧ getTransactions_query (mkTxListArgs None None type category_id)
    = mkTxQuery
        ((if Js.truthy_str type then [TxTypeEq (default "" type)] else [])
         ++ (if Js.truthy_str category_id
             then [TxCategoryIdEq (default "" category_id)] else []))
        true (Some 1000%nat).
Proof.
  assert (Hq1 : getTransactions_query (mkTxListArgs (Some month) None type category_id)
                = getTransactions_query (mkTxListArgs None None type category_id)).
  { unfold getTransactions_query. simpl. by rewrite andb_false_r. }
  assert (Hq2 : getTransactions_query (mkTxListArgs None (Some year) type category_id)
                = getTransactions_query (mkTxListArgs None None type category_id)).
  { reflexivity. }
  split_and!.
  - unfold getTransactions. by rewrite Hq1.
  - unfold getTransactions. by rewrite Hq2.
  - unfold getTransactions_query. simpl.
    by destruct (Js.truthy_str type), (Js.truthy_str category_id).
Qed.

(** ** The scenarios of the specification *)

(** Scenario A: a budget of 100 overspent by 50. *)
Example scenario_A :
  budgetStatus [lunch] [groceries] 6 2025
  = Ok [mkBudgetStatusEntry "c1" "Groceries" 100%Q 150%Q 0%Q 100%Q true "#E07A5F"].
Proof. vm_compute. reflexivity. Qed.

(** Scenario B: income 1000, expense 400, investment 200 in June 2025. *)
Example scenario_B :
  monthlySummary
    [mkTransaction "a" "income" 1000%Q "c0" None (mkDate 2025 6 1) "";
     mkTransaction "b" "expense" 400%Q "c1" None (mkDate 2025 6 2) "";
     mkTransaction "c" "investment" 200%Q "c2" None (mkDate 2025 6 3) ""]
    [groceries] 6 2025
  = Ok (mkMonthlySummary 6 2025 1000%Q 400%Q 200%Q 600%Q
          [mkBreakdownEntry "c0" "Unknown" "expense" 1000%Q 0%Q "#3D405B";
           mkBreakdownEntry "c1" "Groceries" "expense" 400%Q 100%Q "#E07A5F";
           mkBreakdownEntry "c2" "Unknown" "expense" 200%Q 0%Q "#3D405B"]).
Proof. vm_compute. reflexivity. Qed.

(** Scenario C: deleting a category a transaction still references. *)
Example scenario_C :
  deleteCategory "c1" (healthy (mkDb [groceries] [lunch] false))
  = (Throw HasDependents,
     mkWorld (mkDb [groceries] [lunch] false) [] [count_request "c1"]).
Proof. vm_compute. reflexivity. Qed.

(** Scenario D: a year without transactions. *)
Example scenario_D :
  yearlySummary [] 2025
  = Ok (mkYearlySummary 2025
          ((λ month, mkMonthEntry month 0%Q 0%Q 0%Q 0%Q) <$> seqZ 1 12)
          0%Q 0%Q 0%Q).
Proof. vm_compute. reflexivity. Qed.

(** December: the Period ends on January 1 of the next year. *)
Example december_period :
  getTransactions_query (mkTxListArgs (Some 12) (Some 2025) None None)
  = mkTxQuery [DateGte (mkDate 2025 12 1); DateLt (mkDate 2026 1 1)]
      true (Some 1000%nat).
Proof. reflexivity. Qed.


(** * Further properties of the code *)

(** ** Periods, years and the month selector *)

(** X1. Every calendar date lies in the Period of its own month and year,
    and in no other Period of a calendar month. *)
Theorem period_partitions_calendar d :
  calendar_date d →
  in_period (d_month d) (d_year d) d
  ∧ ∀ month year, 1 ≤ month ≤ 12 → in_period month year d →
      month = d_month d ∧ year = d_year d.
Proof.
  intros Hd. split.
  - apply in_period_calendar; [by destruct Hd | done | done].
  - intros month year Hm Hin.
    apply (in_period_calendar month year d Hm Hd) in Hin. by destruct Hin.
Qed.

Lemma period_partitions_calendar_witness :
  in_period 12 2025 (mkDate 2025 12 31)
  ∧ ∀ month year, 1 ≤ month ≤ 12 → in_period month year (mkDate 2025 12 31) →
      month = 12 ∧ year = 2025.
Proof.
  apply (period_partitions_calendar (mkDate 2025 12 31)).
  unfold calendar_date. simpl. lia.
Defined.

(** X2. In the month selector, 'next' and 'previous' undo each other, stay
    within the months 1 to 12, and the Period of the next month starts on
    the day the Period of this month ends. *)
Theorem month_selector_steps month year :
  1 ≤ month ≤ 12 →
  (1 ≤ (handleNextMonth month year).1 ≤ 12)
  ∧ (1 ≤ (handlePrevMonth month year).1 ≤ 12)
  ∧ handlePrevMonth (handleNextMonth month year).1 (handleNextMonth month year).2
    = (month, year)
  ∧ handleNextMonth (handlePrevMonth month year).1 (handlePrevMonth month year).2
    = (month, year)
  ∧ startDate (handleNextMonth month year).1 (handleNextMonth month year).2
    = endDate month year
  ∧ endDate (handlePrevMonth month year).1 (handlePrevMonth month year).2
    = startDate month year.
Proof.
  intros Hm. unfold handleNextMonth, handlePrevMonth, startDate, endDate,
    endYear, endMonth.
  repeat case_decide; simpl in *; repeat case_decide; simpl in *;
    split_and!; try lia; try (exfalso; lia); f_equal; lia.
Qed.

Lemma month_selector_steps_witness :
  handlePrevMonth (handleNextMonth 12 2025).1 (handleNextMonth 12 2025).2
  = (12, 2025)
  ∧ startDate (handleNextMonth 12 2025).1 (handleNextMonth 12 2025).2
    = endDate 12 2025.
Proof.
  destruct (month_selector_steps 12 2025) as (_ & _ & Hback & _ & Hadj & _);
    [lia|].
  exact (conj Hback Hadj).
Defined.








(** X4. The entry of a month in the yearly summary carries the totals and
    the balance of the monthly summary of that month. *)
Theorem yearly_entry_is_monthly_summary txs cats month year :
  1 ≤ month ≤ 12 →
  ∃ ys s e, yearlySummary txs year = Ok ys
    ∧ monthlySummary txs cats month year = Ok s
    ∧ ys_monthly_data ys !! Z.to_nat (month - 1) = Some e
    ∧ me_month e = month
    ∧ me_income e = ms_total_income s
    ∧ me_expenses e = ms_total_expenses s
    ∧ me_investments e = ms_total_investments s
    ∧ me_balance e = ms_balance s.
Proof.
  intros Hm. eexists _, _, (month_entry txs year month).
  split; [apply yearlySummary_run|]. split; [apply monthlySummary_run|].
  cbv zeta. unfold ys_monthly_data. split_and!; try reflexivity.
  rewrite list_lookup_fmap, lookup_seqZ_lt by lia.
  simpl. f_equal. f_equal. lia.
Qed.

Lemma yearly_entry_is_monthly_summary_witness :
  ∃ ys s e, yearlySummary [lunch; gift] 2025 = Ok ys
    ∧ monthlySummary [lunch; gift] [groceries] 6 2025 = Ok s
    ∧ ys_monthly_data ys !! 5%nat = Some e
    ∧ me_expenses e = ms_total_expenses s
    ∧ me_balance e = ms_balance s.
Proof.
  destruct (yearly_entry_is_monthly_summary [lunch; gift] [groceries] 6 2025)
    as (ys & s & e & Hys & Hs & He & _ & _ & Hexp & _ & Hbal); [lia|].
  exists ys, s, e. exact (conj Hys (conj Hs (conj He (conj Hexp Hbal)))).
Defined.

(** ** Budget bars, month names and the recent transactions *)

Lemma filter_fmap_comm {A B : Type} (f : A → B) (P : B → Prop)
    `{∀ y, Decision (P y)} (l : list A) :
  filter P (f <$> l) = f <$> filter (λ x, P (f x)) l.
Proof.
  induction l as [|x l IH]; [done|].
  rewrite fmap_cons, !filter_cons. by destruct (decide (P (f x))); rewrite IH.
Qed.

Lemma budget_entry_fill (m : gmap string Q) c :
  let b := budget_entry m c in
  ((0 < bs_budget_limit b)%Q →
   (bs_percentage b == Qmin (bs_spent b / bs_budget_limit b * 100) 100)%Q)
  ∧ (¬ (0 < bs_budget_limit b)%Q → bs_percentage b = 0%Q)
  ∧ (bs_over_budget b = true
     ↔ (0 < bs_budget_limit b)%Q ∧ (bs_budget_limit b < bs_spent b)%Q).
Proof.
  unfold budget_entry. simpl.
  set (spent := Js.opt_num_or (m !! cat_id c) 0%Q).
  set (limit := Js.opt_num_or (parseFloat_opt (cat_budget_limit c)) 0%Q).
  split_and!.
  - intros Hpos. apply gt_spec in Hpos. rewrite Hpos. reflexivity.
  - intros Hnpos. destruct (Js.gt limit 0) eqn:E; [|reflexivity].
    apply gt_spec in E. by destruct Hnpos.
  - rewrite andb_true_iff, !gt_spec. reflexivity.
Qed.

Section BudgetColours.
Import PrimFloat.



End BudgetColours.

#[global] Instance Qlt_decision (x y : Q) : Decision (x < y)%Q.
Proof.
  destruct (Qlt_le_dec x y) as [Hlt|Hle]; [left; exact Hlt | right].
  by apply Qle_not_lt.
Defined.

(** X6. The dashboard draws a bar for exactly the expense categories with
    a positive budget limit, in the order of [budgetStatus]; the value of
    a bar is the percentage of its entry (clamping it again changes
    nothing), and its 'Over by' amount is positive exactly when the entry
    is over budget; an entry without a bar is never over budget and has
    percentage 0. *)
Theorem dashboard_budget_bars txs cats month year :
  ∃ es, budgetStatus txs cats month year = Ok es
    ∧ bs_category_id <$> shown_budgets es
      = cat_id <$> filter (λ c, cat_type c = "expense"
                                ∧ (0 < default 0 (cat_budget_limit c))%Q) cats
    ∧ Forall (λ b, (progress_value b == bs_percentage b)%Q
                   ∧ (bs_over_budget b = true ↔ (0 < over_by b)%Q))
        (shown_budgets es)
    ∧ Forall (λ b, b ∉ shown_budgets es →
                   bs_over_budget b = false ∧ bs_percentage b = 0%Q) es.
Proof.
  eexists. split; [apply budgetStatus_run|].
  set (m := foldl spending_step ∅ (filter is_expense (period_of month year txs))).
  split_and!.
  - unfold shown_budgets. rewrite filter_fmap_comm, <- list_fmap_compose.
    rewrite list_filter_filter. f_equal. apply list_filter_iff. intros c.
    simpl. rewrite gt_spec, opt_num_or_0. tauto.
  - apply Forall_forall. intros b Hb. unfold shown_budgets in Hb.
    apply list_elem_of_filter in Hb as [Hshown Hb].
    apply list_elem_of_fmap in Hb as (c & -> & _).
    apply gt_spec in Hshown.
    destruct (budget_entry_fill m c) as (Hpos & _ & Hover).
    split.
    + unfold progress_value, Js.min. rewrite (Hpos Hshown).
      apply Q.min_l, Q.le_min_r.
    + rewrite Hover. unfold over_by. split.
      * intros [_ Hlt]. lra.
      * intros Hlt. split; [done | lra].
  - apply Forall_forall. intros b Hb Hnot.
    assert (Hn : ¬ (0 < bs_budget_limit b)%Q).
    { intros Hp. apply Hnot. unfold shown_budgets.
      apply list_elem_of_filter. split; [by apply gt_spec | done]. }
    apply list_elem_of_fmap in Hb as (c & -> & _).
    destruct (budget_entry_fill m c) as (_ & Hnpos & Hover).
    split; [|by apply Hnpos].
    apply not_true_is_false. rewrite Hover. tauto.
Qed.

Lemma months_NoDup : NoDup months.
Proof. apply (bool_decide_unpack (NoDup months)). vm_compute. exact I. Qed.

(** X7. [getMonthName] has a name for the months 1 to 12 and for no other
    number, and gives different months different names. *)
Theorem getMonthName_range month :
  (is_Some (getMonthName month) ↔ 1 ≤ month ≤ 12)
  ∧ ∀ month', is_Some (getMonthName month) →
      getMonthName month = getMonthName month' → month = month'.
Proof.
  unfold getMonthName. split.
  - case_decide as Hm.
    + rewrite lookup_lt_is_Some. change (length months) with 12%nat. lia.
    + split; [by intros [? ?] | lia].
  - intros month' [name Hname] Heq. rewrite Hname in Heq.
    case_decide as Hm; [|done]. case_decide as Hm'; [|done].
    pose proof (NoDup_lookup _ _ _ _ months_NoDup Hname (eq_sym Heq)). lia.
Qed.

Lemma getTransactions_query_month month year :
  month ≠ 0 → year ≠ 0 →
  getTransactions_query (mkTxListArgs (Some month) (Some year) None None)
  = mkTxQuery [DateGte (startDate month year); DateLt (endDate month year)]
      true (Some 1000%nat).
Proof.
  intros Hm Hy. unfold getTransactions_query. simpl.
  by rewrite !bool_decide_eq_true_2.
Qed.

(** X8. The 'Recent Transactions' of the dashboard: of the transactions of
    the Period it shows five, or all of them when they are fewer, newest
    first, and none of the transactions it leaves out of what was fetched
    is newer than one it shows. *)
Theorem dashboard_recent_transactions month year w l :
  month ≠ 0 → year ≠ 0 →
  (getTransactions (mkTxListArgs (Some month) (Some year) None None) w).1 = Ok l →
  length (recentTransactions l)
  = Nat.min 5 (length (period_of month year (transactions (db w))))
  ∧ StronglySorted not_older (recentTransactions l)
  ∧ (∀ t, t ∈ recentTransactions l → in_period month year (tx_date t))
  ∧ (∀ s r, s ∈ recentTransactions l → r ∈ drop 5 l → not_older s r).
Proof.
  intros Hm Hy Hl.
  destruct (getTransactions_outcome
              (mkTxListArgs (Some month) (Some year) None None) w)
    as [[_ [msg Hr]]|[_ Hr]]; rewrite Hr in Hl; [discriminate Hl|].
  injection Hl as <-. rewrite (getTransactions_query_month _ _ Hm Hy).
  set (q := mkTxQuery [DateGte (startDate month year); DateLt (endDate month year)]
              true (Some 1000%nat)).
  destruct (run_tx_query_ordered q (transactions (db w)) 1000 eq_refl eq_refl)
    as (Hsorted & Hlen & Hin).
  assert (Hmatch : filter (λ t, Forall (tx_matches t) (tq_where q)) (transactions (db w))
                   = period_of month year (transactions (db w))).
  { apply list_filter_iff. intros t. simpl.
    rewrite Forall_cons, Forall_singleton. reflexivity. }
  rewrite Hmatch in Hlen.
  set (rows := run_tx_query q (transactions (db w))) in *.
  assert (Hall : StronglySorted not_older (present_tx <$> rows)).
  { revert Hsorted. by apply StronglySorted_fmap. }
  rewrite <- (take_drop 5 (present_tx <$> rows)) in Hall.
  apply StronglySorted_app in Hall as (Hcross & Hrecent & _).
  unfold recentTransactions. split_and!.
  - rewrite length_take, length_fmap, Hlen. lia.
  - exact Hrecent.
  - intros t Ht. apply subseteq_take in Ht.
    apply list_elem_of_fmap in Ht as (row & -> & Hrow).
    apply Hin in Hrow as [_ Hrow]. simpl in Hrow.
    rewrite Forall_cons, Forall_singleton in Hrow. exact Hrow.
  - exact Hcross.
Qed.

Lemma dashboard_recent_transactions_witness :
  length (recentTransactions [present_tx gift; present_tx lunch]) = 2%nat
  ∧ StronglySorted not_older (recentTransactions [present_tx gift; present_tx lunch])
  ∧ ∀ t, t ∈ recentTransactions [present_tx gift; present_tx lunch] →
      in_period 6 2025 (tx_date t).
Proof.
  destruct (dashboard_recent_transactions 6 2025
              (healthy (mkDb [groceries] [lunch; gift] false))
              [present_tx gift; present_tx lunch])
    as (Hlen & Hsorted & Hperiod & _); [lia | lia | vm_compute; reflexivity |].
  split; [|exact (conj Hsorted Hperiod)].
  rewrite Hlen. vm_compute. reflexivity.
Defined.

(** ** The write accessors *)

Lemma await_db_failed {A : Type} (srv : Db → Response A * Db) w msg rest :
  outages w = Some msg :: rest →
  await_db srv w
  = (Ok (mkResponse None (Some msg) None), mkWorld (db w) rest (sent w)).
Proof. intros E. unfold await_db. by rewrite E. Qed.

Lemma await_db_served {A : Type} (srv : Db → Response A * Db) w :
  ¬ next_request_fails w →
  await_db srv w
  = (Ok (srv (db w)).1, mkWorld (srv (db w)).2 (tail (outages w)) (sent w)).
Proof.
  intros Hserved. unfold await_db.
  destruct (outages w) as [|[msg|] rest] eqn:E; simpl.
  - by destruct (srv (db w)).
  - destruct Hserved. by exists msg, rest.
  - by destruct (srv (db w)).
Qed.

Lemma next_request_fails_dec w : next_request_fails w ∨ ¬ next_request_fails w.
Proof.
  unfold next_request_fails. destruct (outages w) as [|[msg|] rest].
  - right. intros (? & ? & E). discriminate E.
  - left. by exists msg, rest.
  - right. intros (? & ? & E). discriminate E.
Qed.

Lemma all_served_step w d' :
  all_served w → all_served (mkWorld d' (tail (outages w)) (sent w)).
Proof. apply all_served_tail. Qed.

Lemma single_data {A : Type} (rows : list A) x :
  data (single rows) = Some x ↔ rows = [x].
Proof.
  destruct rows as [|y [|z rows]]; simpl; split; intros H; try done.
  - by injection H as ->.
  - by injection H as ->.
Qed.

Lemma filter_nil_not_Exists {A : Type} (P : A → Prop) `{∀ x, Decision (P x)}
    (l : list A) :
  filter P l = [] ↔ ¬ Exists P l.
Proof.
  rewrite Exists_exists. split.
  - intros Hnil (x & Hx & HP). by apply (filter_nil_not_elem_of P l x Hnil HP).
  - intros Hnone. apply filter_none. intros x Hx HP. apply Hnone. by exists x.
Qed.

(** The category check of [createTransaction] and [updateTransaction]:
    it lets the call go on only when the request is served and meets
    exactly one category. *)
Lemma category_check cid w :
  ∃ r w1, await_db (Pg.select_category_id cid) w = (Ok r, w1)
    ∧ db w1 = db w
    ∧ (next_request_fails w → data r = None)
    ∧ (¬ Exists (has_id cid) (categories (db w)) → data r = None)
    ∧ (is_Some (data r) →
       ¬ next_request_fails w ∧ Exists (has_id cid) (categories (db w))
       ∧ outages w1 = tail (outages w))
    ∧ (¬ next_request_fails w →
       (∃ c, filter (has_id cid) (categories (db w)) = [c]) →
       is_Some (data r) ∧ outages w1 = tail (outages w)).
Proof.
  destruct (next_request_fails_dec w) as [(msg & rest & E)|Hserved].
  - rewrite (await_db_failed _ w msg rest E). eexists _, _.
    split; [reflexivity|]. simpl. split_and!; try done.
    intros Hs. destruct Hs. by exists msg, rest.
  - rewrite (await_db_served _ w Hserved). eexists _, _.
    split; [reflexivity|]. unfold Pg.select_category_id. simpl.
    split_and!; try done.
    + intros Hnone. apply (proj2 (filter_nil_not_Exists _ _)) in Hnone.
      by rewrite Hnone.
    + intros [x Hx]. apply single_data in Hx. split_and!; [done| |done].
      destruct (decide (Exists (has_id cid) (categories (db w)))) as [|Hn]; [done|].
      apply (proj2 (filter_nil_not_Exists _ _)) in Hn.
      rewrite Hn in Hx. discriminate Hx.
    + intros _ [c Hc]. rewrite Hc. simpl. split; [by eexists | done].
Qed.

(** X9. [createTransaction] fails closed: when the category request fails,
    or no category has the id, it throws 'Category not found', sends no
    insert and leaves the database as it was. *)
Theorem createTransaction_rejects_unknown_category id created_at td w :
  next_request_fails w
  ∨ ¬ Exists (has_id (td_category_id td)) (categories (db w)) →
  ∃ w', createTransaction id created_at td w = (Throw CategoryNotFound, w')
    ∧ db w' = db w.
Proof.
  intros Hbad.
  destruct (category_check (td_category_id td) w)
    as (r & w1 & Hrun & Hdb & Hfail & Hnone & _).
  assert (Hdata : data r = None) by (destruct Hbad; auto).
  unfold createTransaction, mbind, Async_bind. rewrite Hrun, Hdata.
  by exists w1.
Qed.

Lemma createTransaction_rejects_unknown_category_witness :
  ∃ w', createTransaction "t9" "2025-06-20"
          (mkTransactionData "expense" 10%Q "c404" None (mkDate 2025 6 20))
          (healthy (mkDb [groceries] [lunch] false))
        = (Throw CategoryNotFound, w')
    ∧ db w' = mkDb [groceries] [lunch] false.
Proof.
  apply (createTransaction_rejects_unknown_category "t9" "2025-06-20"
           (mkTransactionData "expense" 10%Q "c404" None (mkDate 2025 6 20))
           (healthy (mkDb [groceries] [lunch] false))).
  right. apply (bool_decide_unpack _). vm_compute. exact I.
Defined.

(** The columns at work. *)
Example decimal_15_2_rounds :
  Schema.decimal_15_2 (10005 # 1000) = Some (1001 # 100)
  ∧ Schema.decimal_15_2 (-10005 # 1000) = Some (-1001 # 100)
  ∧ Schema.decimal_15_2 (10004 # 1000) = Some 10%Q
  ∧ Schema.decimal_15_2 (1 # 1000) = Some 0%Q
  ∧ Schema.decimal_15_2 (9999999999999994 # 1000)
    = Some (999999999999999 # 100)
  ∧ Schema.decimal_15_2 (9999999999999995 # 1000) = None
  ∧ Schema.decimal_15_2 (10 ^ 13 # 1) = None.
Proof. vm_compute. done. Qed.

Example valid_dates :
  Schema.valid_date (mkDate 2024 2 29) ∧ ¬ Schema.valid_date (mkDate 2025 2 29)
  ∧ ¬ Schema.valid_date (mkDate 1900 2 29) ∧ Schema.valid_date (mkDate 2000 2 29)
  ∧ ¬ Schema.valid_date (mkDate 2025 6 31) ∧ ¬ Schema.valid_date (mkDate 2025 13 1)
  ∧ ¬ Schema.valid_date (mkDate 0 1 1).
Proof.
  split_and!; apply (bool_decide_unpack _); vm_compute; exact I.
Qed.

Example varchar_7 :
  Schema.varchar 7 "#81B29A" = Some "#81B29A"
  ∧ Schema.varchar 7 "#81B29A  " = Some "#81B29A"
  ∧ Schema.varchar 7 "#81B29AFF" = None
  ∧ Schema.varchar 7 "red" = Some "red".
Proof. vm_compute. done. Qed.

(** What the columns of [transactions] keep of [transactionData]. *)
Lemma transaction_data_stored td stored :
  Schema.transaction_data td = Some stored →
  td_type stored = td_type td
  ∧ Schema.decimal_15_2 (td_amount td) = Some (td_amount stored)
  ∧ td_category_id stored = td_category_id td
  ∧ td_description stored = Some (default "" (td_description td))
  ∧ td_date stored = td_date td
  ∧ Schema.valid_date (td_date td).
Proof.
  unfold Schema.transaction_data, Schema.date.
  destruct (Schema.decimal_15_2 (td_amount td)) as [amount|]; [|done]. simpl.
  case_decide; [|done]. simpl. intros [= <-]. simpl. by split_and!.
Qed.

Lemma transaction_data_refused td :
  Schema.transaction_data td = None ↔
  Schema.decimal_15_2 (td_amount td) = None ∨ ¬ Schema.valid_date (td_date td).
Proof.
  unfold Schema.transaction_data, Schema.date.
  destruct (Schema.decimal_15_2 (td_amount td)) as [amount|]; simpl.
  - case_decide; simpl; split; try done; [by intros [|] | by right].
  - split; [by left | done].
Qed.

(** [createTransaction] once the category check has passed and the insert
    request is served. *)
Lemma insert_half id created_at td w :
  ¬ next_request_fails w →
  Exists (has_id (td_category_id td)) (categories (db w)) →
  (r ← await_db (Pg.insert_transaction id created_at td);
   returning r present_tx) w
  = match Schema.transaction_data td with
    | None =>
        (Throw (PostgrestError "value out of range for the type of the column"),
         mkWorld (db w) (tail (outages w)) (sent w))
    | Some stored =>
        if negb (bool_decide (Schema.type_check (td_type td)))
        then (Throw (PostgrestError "violates check constraint"),
              mkWorld (db w) (tail (outages w)) (sent w))
        else if bool_decide (Exists (tx_has_id id) (transactions (db w)))
        then (Throw (PostgrestError "duplicate key value violates unique constraint"),
              mkWorld (db w) (tail (outages w)) (sent w))
        else (Ok (present_tx (new_transaction id created_at stored)),
              mkWorld (mkDb (categories (db w))
                         (transactions (db w) ++ [new_transaction id created_at stored])
                         (fk_restrict (db w)))
                (tail (outages w)) (sent w))
    end.
Proof.
  intros Hserved Hcat. unfold mbind, Async_bind.
  rewrite (await_db_served _ w Hserved). unfold Pg.insert_transaction.
  destruct (Schema.transaction_data td) as [stored|] eqn:Hstored; [|done].
  destruct (transaction_data_stored _ _ Hstored) as (-> & _ & Hcid & _).
  destruct (negb (bool_decide (Schema.type_check (td_type td)))); [done|].
  destruct (bool_decide (Exists (tx_has_id id) (transactions (db w)))); [done|].
  rewrite Hcid, (bool_decide_eq_true_2 _ Hcat), andb_false_r. reflexivity.
Qed.

(** [createTransaction] in a world that serves the requests, for the id of
    exactly one category: the check passes and the insert is sent. *)
Lemma createTransaction_checked id created_at td w c :
  all_served w →
  filter (has_id (td_category_id td)) (categories (db w)) = [c] →
  ∃ w1, db w1 = db w ∧ all_served w1
    ∧ Exists (has_id (td_category_id td)) (categories (db w1))
    ∧ createTransaction id created_at td w
      = (r ← await_db (Pg.insert_transaction id created_at td);
         returning r present_tx) w1.
Proof.
  intros Hall Hc.
  pose proof (all_served_next w Hall) as Hserved.
  destruct (category_check (td_category_id td) w)
    as (r & w1 & Hrun & Hdb & _ & _ & _ & Hsome).
  destruct (Hsome Hserved (ex_intro _ c Hc)) as [[x Hx] Hout].
  exists w1. split_and!.
  - exact Hdb.
  - unfold all_served. rewrite Hout. by apply all_served_tail.
  - rewrite Hdb. apply Exists_exists. exists c.
    assert (Hin : c ∈ filter (has_id (td_category_id td)) (categories (db w)))
      by (rewrite Hc; apply elem_of_cons; by left).
    apply list_elem_of_filter in Hin. tauto.
  - unfold createTransaction, mbind at 1, Async_bind at 1. by rewrite Hrun, Hx.
Qed.

(** X10. When the requests are served, exactly one category has the id
    given and no transaction has the new id, [createTransaction] does what
    the columns of the schema allow.  With a type 'income' or 'expense',
    an amount that fits DECIMAL(15,2) once rounded to two decimals and a
    date of the calendar, it appends one row to the transactions, changes
    nothing else, and returns that row with the rounded amount and its
    description as text (the empty text when none was given, which is
    also what the column then holds).  With any other type, an amount that overflows or
    a date that is none, it throws the error of the database and changes
    nothing. *)
Theorem createTransaction_inserts id created_at td w c :
  all_served w →
  filter (has_id (td_category_id td)) (categories (db w)) = [c] →
  ¬ Exists (tx_has_id id) (transactions (db w)) →
  (∀ amount,
     Schema.type_check (td_type td) →
     Schema.decimal_15_2 (td_amount td) = Some amount →
     Schema.valid_date (td_date td) →
     ∃ w', createTransaction id created_at td w
           = (Ok (mkTransaction id (td_type td) amount (td_category_id td)
                    (Some (Js.opt_str_or (td_description td) ""))
                    (td_date td) created_at), w')
       ∧ transactions (db w')
         = transactions (db w)
           ++ [mkTransaction id (td_type td) amount (td_category_id td)
                 (Some (default "" (td_description td))) (td_date td)
                 created_at]
       ∧ categories (db w') = categories (db w)
       ∧ all_served w')
  ∧ (¬ Schema.type_check (td_type td)
     ∨ Schema.decimal_15_2 (td_amount td) = None
     ∨ ¬ Schema.valid_date (td_date td) →
     ∃ msg w', createTransaction id created_at td w
               = (Throw (PostgrestError msg), w')
       ∧ db w' = db w).
Proof.
  intros Hall Hc Hfresh.
  destruct (createTransaction_checked id created_at td w c Hall Hc)
    as (w1 & Hdb & Hall1 & Hcat & ->).
  rewrite (insert_half id created_at td w1 (all_served_next w1 Hall1) Hcat).
  rewrite Hdb. split.
  - intros amount Htype Hamount Hdate.
    destruct (Schema.transaction_data td) as [stored|] eqn:Hstored.
    + destruct (transaction_data_stored _ _ Hstored)
        as (Hty & Ham & Hcid & Hdesc & Hd & _).
      rewrite Hamount in Ham. injection Ham as Ham.
      rewrite (bool_decide_eq_true_2 _ Htype), bool_decide_eq_false_2 by done.
      unfold present_tx, new_transaction, parseFloat. simpl.
      rewrite Hty, <- Ham, Hcid, Hdesc, Hd.
      assert (Htext : Js.opt_str_or (Some (default "" (td_description td))) ""
                      = Js.opt_str_or (td_description td) "").
      { destruct (td_description td) as [text|]; [done|]. reflexivity. }
      rewrite Htext.
      eexists. split; [reflexivity|]. simpl. split_and!; try done.
      by apply all_served_step.
    + apply transaction_data_refused in Hstored as [Hnone|Hnodate].
      * rewrite Hamount in Hnone. discriminate Hnone.
      * by destruct Hnodate.
  - intros Hbad.
    destruct (Schema.transaction_data td) as [stored|] eqn:Hstored.
    + destruct (transaction_data_stored _ _ Hstored)
        as (_ & Ham & _ & _ & _ & Hd).
      destruct Hbad as [Hbad|[Hbad|Hbad]].
      * rewrite (bool_decide_eq_false_2 _ Hbad). simpl. by eexists _, _.
      * rewrite Ham in Hbad. discriminate Hbad.
      * by destruct Hbad.
    + by eexists _, _.
Qed.

Lemma createTransaction_inserts_witness :
  ∃ w', createTransaction "t9" "2025-06-20"
          (mkTransactionData "expense" (10005 # 1000) "c1" None (mkDate 2025 6 20))
          (healthy (mkDb [groceries] [lunch] false))
        = (Ok (mkTransaction "t9" "expense" (1001 # 100) "c1" (Some "")
                 (mkDate 2025 6 20) "2025-06-20"), w')
    ∧ length (transactions (db w')) = 2%nat.
Proof.
  destruct (createTransaction_inserts "t9" "2025-06-20"
              (mkTransactionData "expense" (10005 # 1000) "c1" None
                 (mkDate 2025 6 20))
              (healthy (mkDb [groceries] [lunch] false)) groceries)
    as [Hstores _].
  - constructor.
  - reflexivity.
  - apply (bool_decide_unpack _). vm_compute. exact I.
  - destruct (Hstores (1001 # 100)) as (w' & Hrun & Htxs & _).
    + by right.
    + reflexivity.
    + apply (bool_decide_unpack _). vm_compute. exact I.
    + exists w'. split; [exact Hrun|]. rewrite Htxs. reflexivity.
Defined.

Lemma createTransaction_ok_inv id created_at td w row w' :
  all_served w →
  createTransaction id created_at td w = (Ok row, w') →
  (∃ stored, td_category_id stored = td_category_id td
     ∧ db w' = mkDb (categories (db w))
                 (transactions (db w) ++ [new_transaction id created_at stored])
                 (fk_restrict (db w)))
  ∧ all_served w'.
Proof.
  intros Hall Hrun.
  destruct (category_check (td_category_id td) w)
    as (r & w1 & Hcheck & Hdb & _ & _ & Hsome & _).
  unfold createTransaction, mbind at 1, Async_bind at 1 in Hrun.
  rewrite Hcheck in Hrun. destruct (data r) as [x|] eqn:Hx; [|discriminate Hrun].
  destruct (Hsome (mk_is_Some _ _ eq_refl)) as (_ & Hcat & Hout).
  assert (Hall1 : all_served w1).
  { unfold all_served. rewrite Hout. by apply all_served_tail. }
  rewrite <- Hdb in Hcat.
  rewrite (insert_half id created_at td w1 (all_served_next w1 Hall1) Hcat) in Hrun.
  destruct (Schema.transaction_data td) as [stored|] eqn:Hstored;
    [|discriminate Hrun].
  destruct (negb _); [discriminate Hrun|].
  destruct (bool_decide _); [discriminate Hrun|].
  injection Hrun as _ <-. simpl. rewrite Hdb. split.
  - exists stored. split; [|done].
    by destruct (transaction_data_stored _ _ Hstored) as (_ & _ & ? & _).
  - by apply all_served_step.
Qed.

(** [deleteCategory] in a world that serves the requests, for a category
    no transaction references. *)
Lemma deleteCategory_unreferenced id w :
  all_served w →
  ¬ Exists (references id) (transactions (db w)) →
  ∃ w', deleteCategory id w = (Ok tt, w')
    ∧ categories (db w') = filter (λ c, cat_id c ≠ id) (categories (db w))
    ∧ transactions (db w') = transactions (db w).
Proof.
  intros Hall Hex. rewrite (deleteCategory_counted id w (all_served_next w Hall)).
  rewrite bool_decide_eq_false_2 by done.
  pose proof (all_served_tail w Hall) as Htail.
  unfold mbind, Async_bind, send, serve. simpl.
  rewrite bool_decide_eq_false_2, andb_false_r by done.
  destruct (tail (outages w)) as [|[msg|] rest]; simpl.
  - by eexists.
  - apply Forall_cons in Htail as [Hmsg _]. discriminate Hmsg.
  - by eexists.
Qed.

Lemma delete_half_ok id w w' :
  (r' ← send (DeleteCategory id);
   match error r' with
   | Some e => throw (PostgrestError e)
   | None => mret tt
   end) w = (Ok tt, w') →
  categories (db w') = filter (λ c, cat_id c ≠ id) (categories (db w))
  ∧ transactions (db w') = transactions (db w).
Proof.
  unfold mbind, Async_bind, send, serve.
  destruct (outages w) as [|[msg|] rest];
    try destruct (fk_restrict (db w) && bool_decide _); simpl;
    intros Hrun; try discriminate Hrun; by injection Hrun as <-.
Qed.

Lemma deleteCategory_ok_inv id w w' :
  deleteCategory id w = (Ok tt, w') →
  categories (db w') = filter (λ c, cat_id c ≠ id) (categories (db w))
  ∧ transactions (db w') = transactions (db w).
Proof.
  destruct (next_request_fails_dec w) as [(msg & rest & E)|Hserved].
  - rewrite (deleteCategory_uncounted id w msg rest E). intros Hrun.
    by apply delete_half_ok in Hrun.
  - rewrite (deleteCategory_counted id w Hserved).
    destruct (bool_decide _); [discriminate|]. intros Hrun.
    by apply delete_half_ok in Hrun.
Qed.

(** X11. A transaction that [createTransaction] has written protects its
    category: in a world that serves the requests, [deleteCategory] of
    that category then fails with HasDependents and changes nothing. *)
Theorem created_transaction_blocks_deleteCategory id created_at td w row w' :
  all_served w →
  createTransaction id created_at td w = (Ok row, w') →
  ∃ w'', deleteCategory (td_category_id td) w' = (Throw HasDependents, w'')
    ∧ db w'' = db w'.
Proof.
  intros Hall Hrun.
  destruct (createTransaction_ok_inv _ _ _ _ _ _ Hall Hrun)
    as [(stored & Hcid & Hdb) Hall'].
  rewrite (deleteCategory_counted _ w' (all_served_next w' Hall')).
  rewrite bool_decide_eq_true_2; [by eexists|].
  rewrite Hdb. simpl. apply Exists_app. right. apply Exists_cons_hd. exact Hcid.
Qed.

Lemma created_transaction_blocks_deleteCategory_witness :
  ∃ row w' w'',
    createTransaction "t9" "2025-06-20"
      (mkTransactionData "expense" 10%Q "c1" None (mkDate 2025 6 20))
      (healthy (mkDb [groceries] [] false)) = (Ok row, w')
    ∧ deleteCategory "c1" w' = (Throw HasDependents, w'').
Proof.
  eexists _, _.
  assert (Hrun : createTransaction "t9" "2025-06-20"
      (mkTransactionData "expense" 10%Q "c1" None (mkDate 2025 6 20))
      (healthy (mkDb [groceries] [] false))
    = (Ok (mkTransaction "t9" "expense" 10%Q "c1" (Some "")
             (mkDate 2025 6 20) "2025-06-20"),
       mkWorld (mkDb [groceries]
                  [mkTransaction "t9" "expense" 10%Q "c1" (Some "")
                     (mkDate 2025 6 20) "2025-06-20"] false) [] []))
    by reflexivity.
  assert (Hall : all_served (healthy (mkDb [groceries] [] false)))
    by constructor.
  destruct (created_transaction_blocks_deleteCategory _ _ _ _ _ _ Hall Hrun)
    as (w'' & Hdel & _).
  exists w''. exact (conj Hrun Hdel).
Defined.

(** X12. Once [deleteCategory] has returned normally, no transaction can
    be created in that category: [createTransaction] throws 'Category not
    found' and changes nothing. *)
Theorem deleted_category_rejects_transactions cid w w' id created_at td :
  deleteCategory cid w = (Ok tt, w') →
  td_category_id td = cid →
  ∃ w'', createTransaction id created_at td w' = (Throw CategoryNotFound, w'')
    ∧ db w'' = db w'.
Proof.
  intros Hdel Hcid. destruct (deleteCategory_ok_inv _ _ _ Hdel) as [Hcats _].
  destruct (category_check (td_category_id td) w')
    as (r & w1 & Hrun & Hdb & _ & Hnone & _).
  unfold createTransaction, mbind, Async_bind. rewrite Hrun, Hnone.
  - by exists w1.
  - rewrite Hcats, Hcid, Exists_exists. intros (c & Hc & Hid).
    apply list_elem_of_filter in Hc as [Hne _]. by destruct Hne.
Qed.

Lemma deleted_category_rejects_transactions_witness :
  ∃ w' w'',
    deleteCategory "c1" (healthy (mkDb [groceries] [] false)) = (Ok tt, w')
    ∧ createTransaction "t9" "2025-06-20"
        (mkTransactionData "expense" 10%Q "c1" None (mkDate 2025 6 20)) w'
      = (Throw CategoryNotFound, w'').
Proof.
  eexists.
  assert (Hdel : deleteCategory "c1" (healthy (mkDb [groceries] [] false))
                 = (Ok tt, mkWorld (mkDb [] [] false) []
                             [count_request "c1"; delete_request "c1"]))
    by reflexivity.
  destruct (deleted_category_rejects_transactions "c1" _ _ "t9" "2025-06-20"
              (mkTransactionData "expense" 10%Q "c1" None (mkDate 2025 6 20))
              Hdel eq_refl) as (w'' & Hrun & _).
  exists w''. exact (conj Hdel Hrun).
Defined.

(** X13. [deleteTransaction] removes the transactions with the id given
    and nothing else; for an id no transaction has, it returns normally
    all the same and the database is as before.  It throws only when its
    request fails, and then changes nothing. *)
Theorem deleteTransaction_removes id w :
  (¬ next_request_fails w →
   ∃ w', deleteTransaction id w = (Ok tt, w')
     ∧ transactions (db w') = filter (λ t, tx_id t ≠ id) (transactions (db w))
     ∧ categories (db w') = categories (db w)
     ∧ (¬ Exists (tx_has_id id) (transactions (db w)) →
        transactions (db w') = transactions (db w)))
  ∧ (next_request_fails w →
     ∃ msg w', deleteTransaction id w = (Throw (PostgrestError msg), w')
       ∧ db w' = db w).
Proof.
  unfold deleteTransaction, mbind, Async_bind. split.
  - intros Hserved. rewrite (await_db_served _ w Hserved). simpl.
    eexists. split; [reflexivity|]. simpl. split_and!; [done..|].
    intros Hnone. induction (transactions (db w)) as [|t l IH]; [done|].
    rewrite filter_cons_True.
    + f_equal. apply IH. intros Hl. apply Hnone. by apply Exists_cons_tl.
    + intros Hid. apply Hnone. by apply Exists_cons_hd.
  - intros (msg & rest & E). rewrite (await_db_failed _ w msg rest E). simpl.
    by eexists _, _.
Qed.

(** X14. Deleting the only transaction that references a category makes
    the category deletable: in a world that serves the requests,
    [deleteTransaction] followed by [deleteCategory] returns normally and
    the category is gone. *)
Theorem deleteTransaction_unblocks_deleteCategory tid cid w :
  all_served w →
  (∀ t, t ∈ transactions (db w) → references cid t → tx_id t = tid) →
  ∃ w1 w2, deleteTransaction tid w = (Ok tt, w1)
    ∧ deleteCategory cid w1 = (Ok tt, w2)
    ∧ ¬ Exists (has_id cid) (categories (db w2))
    ∧ transactions (db w2) = filter (λ t, tx_id t ≠ tid) (transactions (db w)).
Proof.
  intros Hall Honly.
  unfold deleteTransaction, mbind at 1, Async_bind at 1.
  rewrite (await_db_served _ w (all_served_next w Hall)). simpl.
  set (w1 := mkWorld _ _ _).
  assert (Hall1 : all_served w1) by (by apply all_served_step).
  destruct (deleteCategory_unreferenced cid w1 Hall1) as (w2 & Hdel & Hcats & Htxs).
  { unfold w1. simpl. rewrite Exists_exists. intros (t & Ht & Href).
    apply list_elem_of_filter in Ht as [Hne Ht]. apply Hne.
    by apply Honly. }
  exists w1, w2. split_and!; [done | done | | by rewrite Htxs].
  rewrite Hcats, Exists_exists. intros (c & Hc & Hid).
  apply list_elem_of_filter in Hc as [Hne _]. by destruct Hne.
Qed.

Lemma deleteTransaction_unblocks_deleteCategory_witness :
  ∃ w1 w2, deleteTransaction "t1" (healthy (mkDb [groceries] [lunch] false))
           = (Ok tt, w1)
    ∧ deleteCategory "c1" w1 = (Ok tt, w2)
    ∧ ¬ Exists (has_id "c1") (categories (db w2)).
Proof.
  destruct (deleteTransaction_unblocks_deleteCategory "t1" "c1"
              (healthy (mkDb [groceries] [lunch] false)))
    as (w1 & w2 & H1 & H2 & H3 & _).
  - constructor.
  - intros t Ht _. apply list_elem_of_singleton in Ht. by subst t.
  - exists w1, w2. exact (conj H1 (conj H2 H3)).
Defined.

Lemma update_category_sound id u : sound_write (Pg.update_category id u).
Proof.
  intros d. unfold Pg.update_category, Pg.refused.
  destruct (Schema.category_updates u) as [stored|]; [|by split].
  destruct (filter (has_id id) (categories d)) as [|c [|c' rows]]; simpl;
    [by split| |by split].
  destruct (negb _); simpl; split; intros; try done; by eexists.
Qed.

Lemma update_transaction_sound id u : sound_write (Pg.update_transaction id u).
Proof.
  intros d. unfold Pg.update_transaction, Pg.refused.
  destruct (Schema.transaction_updates u) as [stored|]; [|by split].
  destruct (filter (tx_has_id id) (transactions d)) as [|t [|t' rows]]; simpl;
    [by split| |by split].
  destruct (negb _); [by split|].
  destruct (fk_restrict d && _); simpl; split; intros; try done; by eexists.
Qed.

(** An accessor that sends one such request and returns its object: it
    throws only the error of the response, and then the database is as it
    was. *)
Lemma write_and_return {A B : Type} (srv : Db → Response A * Db)
    (present : A → B) w :
  sound_write srv →
  (∃ msg, (r ← await_db srv; returning r present) w
          = (Throw (PostgrestError msg),
             mkWorld (db w) (tail (outages w)) (sent w))
     ∧ (next_request_fails w ∨ error (srv (db w)).1 = Some msg))
  ∨ (∃ row, ¬ next_request_fails w
       ∧ (srv (db w)).1 = mkResponse (Some row) None (count (srv (db w)).1)
       ∧ (r ← await_db srv; returning r present) w
         = (Ok (present row),
            mkWorld (srv (db w)).2 (tail (outages w)) (sent w))).
Proof.
  intros Hsound. unfold mbind, Async_bind.
  destruct (next_request_fails_dec w) as [(msg & rest & E)|Hserved].
  - left. exists msg. rewrite (await_db_failed _ w msg rest E). simpl.
    rewrite E. split; [done|]. left. by exists msg, rest.
  - rewrite (await_db_served _ w Hserved). destruct (Hsound (db w)) as [Hok Herr].
    unfold returning. destruct (srv (db w)) as [[dat err cnt] d'] eqn:Hsrv.
    simpl in *. destruct err as [msg|].
    + left. exists msg. rewrite Herr by done. split; [done | by right].
    + right. destruct (Hok eq_refl) as [row ->]. exists row. by split_and!.
Qed.

(** X15. [updateTransaction] rejects what it cannot resolve and changes
    nothing: with a category_id in the updates that no category has (or
    when the category request fails) it throws 'Category not found'; for
    an id no transaction has it throws in every case. *)
Theorem updateTransaction_rejects id u w :
  (∀ cid, tu_category_id u = Some cid → cid ≠ "" →
     next_request_fails w ∨ ¬ Exists (has_id cid) (categories (db w)) →
     ∃ w', updateTransaction id u w = (Throw CategoryNotFound, w')
       ∧ db w' = db w)
  ∧ (¬ Exists (tx_has_id id) (transactions (db w)) →
     ∃ e w', updateTransaction id u w = (Throw e, w') ∧ db w' = db w).
Proof.
  split.
  - intros cid Hcid Hne Hbad. unfold updateTransaction.
    rewrite Hcid. simpl. rewrite bool_decide_eq_true_2 by done.
    destruct (category_check cid w) as (r & w1 & Hrun & Hdb & Hfail & Hnone & _).
    assert (Hdata : data r = None) by (destruct Hbad; auto).
    unfold mbind, Async_bind. rewrite Hrun, Hdata. by exists w1.
  - intros Hnone. unfold updateTransaction.
    assert (Hupdate : ∀ w1, db w1 = db w →
      ∃ e w', (r ← await_db (Pg.update_transaction id u);
               returning r present_tx) w1 = (Throw e, w') ∧ db w' = db w).
    { intros w1 Hdb.
      destruct (write_and_return (Pg.update_transaction id u) present_tx w1
                  (update_transaction_sound id u))
        as [(msg & Hrun & _)|(row & _ & Hrow & _)].
      - rewrite Hrun. by eexists _, _.
      - unfold Pg.update_transaction, Pg.refused in Hrow. rewrite Hdb in Hrow.
        destruct (Schema.transaction_updates u); [|discriminate Hrow].
        rewrite (proj2 (filter_nil_not_Exists _ _) Hnone) in Hrow.
        discriminate Hrow. }
    unfold mbind, Async_bind in Hupdate |- *.
    destruct (Js.truthy_str (tu_category_id u)).
    + destruct (category_check (default "" (tu_category_id u)) w)
        as (r & w1 & Hrun & Hdb & _).
      rewrite Hrun. destruct (data r); [|by eexists _, _].
      apply (Hupdate w1 Hdb).
    + apply (Hupdate w eq_refl).
Qed.

(** What the columns keep of the updates of a transaction and of a
    category: a value given is rounded, cut or refused by its column, a
    property left out stays left out. *)
Lemma transaction_updates_stored u stored :
  Schema.transaction_updates u = Some stored →
  tu_type stored = tu_type u
  ∧ Schema.given Schema.decimal_15_2 (tu_amount u) = Some (tu_amount stored)
  ∧ tu_category_id stored = tu_category_id u
  ∧ tu_description stored = tu_description u
  ∧ Schema.given Schema.date (tu_date u) = Some (tu_date stored).
Proof.
  unfold Schema.transaction_updates.
  destruct (Schema.given Schema.decimal_15_2 (tu_amount u)) as [amount|]; [|done].
  destruct (Schema.given Schema.date (tu_date u)) as [date|]; [|done].
  simpl. intros [= <-]. by split_and!.
Qed.

Lemma category_updates_stored u stored :
  Schema.category_updates u = Some stored →
  Schema.given (Schema.varchar 255) (cu_name u) = Some (cu_name stored)
  ∧ cu_type stored = cu_type u
  ∧ Schema.given Schema.decimal_15_2 (cu_budget_limit u)
    = Some (cu_budget_limit stored)
  ∧ Schema.given (Schema.varchar 7) (cu_color u) = Some (cu_color stored).
Proof.
  unfold Schema.category_updates.
  destruct (Schema.given (Schema.varchar 255) (cu_name u)) as [name|]; [|done].
  destruct (Schema.given Schema.decimal_15_2 (cu_budget_limit u))
    as [budget_limit|]; [|done].
  destruct (Schema.given (Schema.varchar 7) (cu_color u)) as [color|]; [|done].
  simpl. intros [= <-]. by split_and!.
Qed.

(** [updateTransaction] in a world that serves the requests, for a
    category_id that exactly one category has: the check passes and the
    update is sent. *)
Lemma updateTransaction_checked id u w cid c :
  all_served w →
  tu_category_id u = Some cid → cid ≠ "" →
  filter (has_id cid) (categories (db w)) = [c] →
  ∃ w1, db w1 = db w ∧ ¬ next_request_fails w1
    ∧ updateTransaction id u w
      = (r ← await_db (Pg.update_transaction id u); returning r present_tx) w1.
Proof.
  intros Hall Hcid Hne Hc.
  pose proof (all_served_next w Hall) as Hserved.
  destruct (category_check cid w) as (r & w1 & Hrun & Hdb & _ & _ & _ & Hsome).
  destruct (Hsome Hserved (ex_intro _ c Hc)) as [[x Hx] Hout].
  exists w1. split_and!.
  - exact Hdb.
  - apply all_served_next. unfold all_served. rewrite Hout.
    by apply all_served_tail.
  - unfold updateTransaction. rewrite Hcid. simpl.
    rewrite bool_decide_eq_true_2 by done.
    unfold mbind, Async_bind. by rewrite Hrun, Hx.
Qed.

(** X16. When the requests are served, the category_id of the updates
    belongs to exactly one category and the id to exactly one transaction,
    [updateTransaction] does what the columns of the schema allow.  When
    the columns take the values given (an amount is rounded to two
    decimals, as DECIMAL(15,2) stores it) and the type of the updated row
    is 'income' or 'expense', it returns the row with the stored values
    applied (id and created_at kept), rewrites that row only, and leaves
    the categories alone.  When a column refuses a value (an amount that
    overflows, a date that is none) or the updated row has another type,
    it throws the error of the database and changes nothing. *)
Theorem updateTransaction_rewrites_one_row id u w cid c t :
  all_served w →
  tu_category_id u = Some cid → cid ≠ "" →
  filter (has_id cid) (categories (db w)) = [c] →
  filter (tx_has_id id) (transactions (db w)) = [t] →
  (∀ stored,
     Schema.transaction_updates u = Some stored →
     Schema.type_check (tx_type (update_tx stored t)) →
     ∃ w', updateTransaction id u w = (Ok (present_tx (update_tx stored t)), w')
       ∧ tx_id (update_tx stored t) = id
       ∧ tx_created_at (update_tx stored t) = tx_created_at t
       ∧ tx_category_id (update_tx stored t) = cid
       ∧ (∀ amount, tu_amount u = Some amount →
            Schema.decimal_15_2 amount = Some (tx_amount (update_tx stored t)))
       ∧ (tu_amount u = None → tx_amount (update_tx stored t) = tx_amount t)
       ∧ transactions (db w')
         = (λ t', if decide (tx_id t' = id) then update_tx stored t else t')
             <$> transactions (db w)
       ∧ categories (db w') = categories (db w))
  ∧ (Schema.transaction_updates u = None
     ∨ (∃ stored, Schema.transaction_updates u = Some stored
          ∧ ¬ Schema.type_check (tx_type (update_tx stored t))) →
     ∃ msg w', updateTransaction id u w = (Throw (PostgrestError msg), w')
       ∧ db w' = db w).
Proof.
  intros Hall Hcid Hne Hc Ht.
  destruct (updateTransaction_checked id u w cid c Hall Hcid Hne Hc)
    as (w1 & Hdb & Hserved1 & ->).
  assert (Htid : tx_id t = id ∧ t ∈ transactions (db w)).
  { assert (Hin : t ∈ filter (tx_has_id id) (transactions (db w)))
      by (rewrite Ht; apply elem_of_cons; by left).
    by apply list_elem_of_filter in Hin. }
  assert (Hcat : Exists (has_id cid) (categories (db w))).
  { apply Exists_exists. exists c.
    assert (Hin : c ∈ filter (has_id cid) (categories (db w)))
      by (rewrite Hc; apply elem_of_cons; by left).
    apply list_elem_of_filter in Hin. tauto. }
  unfold mbind, Async_bind. rewrite (await_db_served _ w1 Hserved1).
  unfold Pg.update_transaction, Pg.refused. rewrite Hdb, Ht. split.
  - intros stored Hstored Htype. rewrite Hstored.
    destruct (transaction_updates_stored _ _ Hstored)
      as (_ & Hamount & Hcid' & _).
    assert (Hnew : tx_category_id (update_tx stored t) = cid).
    { unfold update_tx. simpl. by rewrite Hcid', Hcid. }
    rewrite (bool_decide_eq_true_2 _ Htype). cbn [negb].
    rewrite Hnew, (bool_decide_eq_true_2 _ Hcat), andb_false_r. cbn [negb].
    eexists. split; [reflexivity|]. simpl. split_and!; try done.
    + by destruct Htid.
    + intros amount Hgiven. rewrite Hgiven in Hamount. simpl in Hamount.
      destruct (Schema.decimal_15_2 amount) as [rounded|]; [|done].
      simpl in Hamount. injection Hamount as <-. reflexivity.
    + intros Hleft. rewrite Hleft in Hamount. simpl in Hamount.
      injection Hamount as <-. reflexivity.
    + apply list_fmap_ext. intros i t' Ht'. unfold tx_has_id.
      destruct (decide (tx_id t' = id)) as [Hid|]; [|done].
      assert (Hin : t' ∈ filter (tx_has_id id) (transactions (db w))).
      { apply list_elem_of_filter. split; [done|].
        apply list_elem_of_lookup. eauto. }
      rewrite Ht in Hin. apply list_elem_of_singleton in Hin. by subst t'.
  - intros [Hnone|(stored & Hstored & Htype)].
    + rewrite Hnone. simpl. by eexists _, _.
    + rewrite Hstored, (bool_decide_eq_false_2 _ Htype). simpl. by eexists _, _.
Qed.

Lemma updateTransaction_rewrites_one_row_witness :
  ∃ w', updateTransaction "t1"
          (mkTransactionUpdates None (Some (175005 # 1000)) (Some "c1") None None)
          (healthy (mkDb [groceries] [lunch; gift] false))
        = (Ok (mkTransaction "t1" "expense" (17501 # 100) "c1" (Some "")
                 (mkDate 2025 6 10) "2025-06-10"), w')
    ∧ categories (db w') = [groceries].
Proof.
  destruct (updateTransaction_rewrites_one_row "t1"
              (mkTransactionUpdates None (Some (175005 # 1000)) (Some "c1")
                 None None)
              (healthy (mkDb [groceries] [lunch; gift] false))
              "c1" groceries lunch)
    as [Hstores _];
    [constructor | reflexivity | discriminate | reflexivity | reflexivity |].
  destruct (Hstores
              (mkTransactionUpdates None (Some (17501 # 100)) (Some "c1")
                 None None))
    as (w' & Hrun & _ & _ & _ & _ & _ & _ & Hcats).
  - reflexivity.
  - by right.
  - exists w'. exact (conj Hrun Hcats).
Defined.

(** X17. [updateCategory] throws the error of the database, and changes
    nothing, when no category has the id.  When exactly one has it and the
    request is served, it does what the columns of the schema allow: when
    they take the values given (a budget_limit is rounded to two decimals,
    as DECIMAL(15,2) stores it; a color longer than VARCHAR(7) is taken
    only when what exceeds it is spaces) and the type of the updated
    category is 'income' or 'expense', it returns that category with the
    stored values applied and its budget_limit as a number, keeps every id
    in place, and leaves the other categories and the transactions alone;
    when a column refuses a value or the updated category has another
    type, it throws the error of the database and changes nothing. *)
Theorem updateCategory_one_category id u w :
  (¬ Exists (has_id id) (categories (db w)) →
   ∃ msg w', updateCategory id u w = (Throw (PostgrestError msg), w')
     ∧ db w' = db w)
  ∧ (∀ c stored, ¬ next_request_fails w →
       filter (has_id id) (categories (db w)) = [c] →
       Schema.category_updates u = Some stored →
       Schema.type_check (cat_type (update_cat stored c)) →
       ∃ w', updateCategory id u w = (Ok (present_cat (update_cat stored c)), w')
         ∧ (∀ b, cu_budget_limit u = Some b →
              ∃ rounded, Schema.decimal_15_2 b = Some rounded
                ∧ cat_budget_limit (present_cat (update_cat stored c))
                  = Some (Js.num_or rounded 0%Q))
         ∧ (cu_budget_limit u = None →
            cat_budget_limit (present_cat (update_cat stored c))
            = Some (Js.opt_num_or (cat_budget_limit c) 0%Q))
         ∧ (∀ color, cu_color u = Some color →
              Schema.varchar 7 color
              = Some (cat_color (present_cat (update_cat stored c))))
         ∧ cat_id <$> categories (db w') = cat_id <$> categories (db w)
         ∧ (∀ c', c' ∈ categories (db w) → cat_id c' ≠ id →
              c' ∈ categories (db w'))
         ∧ transactions (db w') = transactions (db w))
  ∧ (∀ c, ¬ next_request_fails w →
       filter (has_id id) (categories (db w)) = [c] →
       Schema.category_updates u = None
       ∨ (∃ stored, Schema.category_updates u = Some stored
            ∧ ¬ Schema.type_check (cat_type (update_cat stored c))) →
       ∃ msg w', updateCategory id u w = (Throw (PostgrestError msg), w')
         ∧ db w' = db w).
Proof.
  unfold updateCategory. split_and!.
  - intros Hnone.
    destruct (write_and_return (Pg.update_category id u) present_cat w
                (update_category_sound id u))
      as [(msg & Hrun & _)|(row & _ & Hrow & _)].
    + rewrite Hrun. by eexists _, _.
    + unfold Pg.update_category, Pg.refused in Hrow.
      destruct (Schema.category_updates u); [|discriminate Hrow].
      rewrite (proj2 (filter_nil_not_Exists _ _) Hnone) in Hrow.
      discriminate Hrow.
  - intros c stored Hserved Hc Hstored Htype. unfold mbind, Async_bind.
    rewrite (await_db_served _ w Hserved). unfold Pg.update_category.
    rewrite Hstored, Hc, (bool_decide_eq_true_2 _ Htype). simpl.
    destruct (category_updates_stored _ _ Hstored) as (_ & _ & Hlimit & Hcolor).
    eexists. split; [reflexivity|]. simpl. split_and!.
    + intros b Hb. rewrite Hb in Hlimit. simpl in Hlimit.
      destruct (Schema.decimal_15_2 b) as [rounded|]; [|done].
      simpl in Hlimit. injection Hlimit as <-. by exists rounded.
    + intros Hleft. rewrite Hleft in Hlimit. simpl in Hlimit.
      injection Hlimit as <-. reflexivity.
    + intros color Hgiven. rewrite Hgiven in Hcolor. simpl in Hcolor.
      destruct (Schema.varchar 7 color) as [cut|]; [|done].
      simpl in Hcolor. injection Hcolor as <-. reflexivity.
    + rewrite <- list_fmap_compose. apply list_fmap_ext. intros i c' _.
      simpl. by destruct (decide (has_id id c')).
    + intros c' Hc' Hne. apply list_elem_of_fmap. exists c'.
      split; [|done]. by rewrite decide_False.
    + reflexivity.
  - intros c Hserved Hc Hbad. unfold mbind, Async_bind.
    rewrite (await_db_served _ w Hserved). unfold Pg.update_category, Pg.refused.
    destruct Hbad as [Hnone|(stored & Hstored & Htype)].
    + rewrite Hnone. simpl. by eexists _, _.
    + rewrite Hstored, Hc, (bool_decide_eq_false_2 _ Htype). simpl.
      by eexists _, _.
Qed.

Lemma updateCategory_one_category_witness :
  ∃ w', updateCategory "c1"
          (mkCategoryUpdates None None (Some (250555 # 1000)) (Some "#81B29A  "))
          (healthy (mkDb [groceries] [lunch] false))
        = (Ok (mkCategory "c1" "Groceries" "expense" (Some (6264 # 25))
                 "#81B29A" "2025-01-01"), w')
    ∧ transactions (db w') = [lunch].
Proof.
  destruct (updateCategory_one_category "c1"
              (mkCategoryUpdates None None (Some (250555 # 1000))
                 (Some "#81B29A  "))
              (healthy (mkDb [groceries] [lunch] false)))
    as (_ & Hstores & _).
  destruct (Hstores groceries
              (mkCategoryUpdates None None (Some (6264 # 25)) (Some "#81B29A")))
    as (w' & Hrun & _ & _ & _ & _ & _ & Htxs).
  - intros (msg & rest & E). discriminate E.
  - reflexivity.
  - reflexivity.
  - by right.
  - exists w'. exact (conj Hrun Htxs).
Defined.

(** X18. [getCategories] returns every category once, each with its
    budget_limit as a number, in the order the database sorts the names
    in, and changes nothing; when its request fails it throws the error of
    the response. *)
Theorem getCategories_lists_all (name_le : string → string → Prop)
    `{∀ a b, Decision (name_le a b)} w :
  (¬ next_request_fails w →
   ∃ l w', getCategories name_le w = (Ok l, w')
     ∧ l ≡ₚ present_cat <$> categories (db w)
     ∧ Forall (λ c, is_Some (cat_budget_limit c)) l
     ∧ (Total name_le → Sorted (λ a b, name_le (cat_name a) (cat_name b)) l)
     ∧ db w' = db w)
  ∧ (next_request_fails w →
     ∃ msg w', getCategories name_le w = (Throw (PostgrestError msg), w')
       ∧ db w' = db w).
Proof.
  unfold getCategories, mbind, Async_bind. split.
  - intros Hserved. rewrite (await_db_served _ w Hserved).
    unfold Pg.select_categories_by_name. simpl.
    eexists _, _. split; [reflexivity|]. simpl. split_and!.
    + by rewrite merge_sort_Permutation.
    + apply Forall_fmap, Forall_true. intros c. by eexists.
    + intros Htotal.
      apply (Sorted_fmap present_cat (λ a b, name_le (cat_name a) (cat_name b)));
        [by intros a b|].
      apply Sorted_merge_sort. intros a b. apply Htotal.
    + reflexivity.
  - intros (msg & rest & E). rewrite (await_db_failed _ w msg rest E). simpl.
    by eexists _, _.
Qed.

Lemma delete_half_db id w :
  let w' := ((r' ← send (DeleteCategory id);
              match error r' with
              | Some e => throw (PostgrestError e)
              | None => mret tt
              end) w).2 in
  db w' = db w
  ∨ (db w' = mkDb (filter (λ c, cat_id c ≠ id) (categories (db w)))
               (transactions (db w)) (fk_restrict (db w))
     ∧ fk_restrict (db w) && bool_decide (Exists (references id) (transactions (db w)))
       = false
     ∧ ∃ w'', (r' ← send (DeleteCategory id);
               match error r' with
               | Some e => throw (PostgrestError e)
               | None => mret tt
               end) w = (Ok tt, w'')).
Proof.
  unfold mbind, Async_bind, send, serve.
  destruct (outages w) as [|[msg|] rest];
    try destruct (fk_restrict (db w) && bool_decide _) eqn:Hfk; simpl;
    try (by left); right; split_and!; try done; by eexists.
Qed.

Lemma deleteCategory_db id w :
  db (deleteCategory id w).2 = db w
  ∨ (db (deleteCategory id w).2
     = mkDb (filter (λ c, cat_id c ≠ id) (categories (db w)))
         (transactions (db w)) (fk_restrict (db w))
     ∧ fk_restrict (db w) && bool_decide (Exists (references id) (transactions (db w)))
       = false
     ∧ (deleteCategory id w).1 = Ok tt).
Proof.
  destruct (next_request_fails_dec w) as [(msg & rest & E)|Hserved].
  - rewrite (deleteCategory_uncounted id w msg rest E).
    destruct (delete_half_db id (mkWorld (db w) rest (sent w ++ [count_request id])))
      as [Hsame|(Hdb & Hfk & w'' & Hok)]; [by left | right].
    simpl in *. split_and!; [exact Hdb | exact Hfk | by rewrite Hok].
  - rewrite (deleteCategory_counted id w Hserved).
    destruct (bool_decide _); [by left|].
    destruct (delete_half_db id
                (mkWorld (db w) (tail (outages w)) (sent w ++ [count_request id])))
      as [Hsame|(Hdb & Hfk & w'' & Hok)]; [by left | right].
    simpl in *. split_and!; [exact Hdb | apply andb_false_r | by rewrite Hok].
Qed.

(** X20. [deleteCategory] never touches a transaction nor a category with
    another id, whatever the requests answer; and where the schema holds
    the foreign key, a category that a transaction references survives
    every call, also one whose count request was lost. *)
Theorem deleteCategory_touches_one_category id w :
  transactions (db (deleteCategory id w).2) = transactions (db w)
  ∧ filter (λ c, cat_id c ≠ id) (categories (db (deleteCategory id w).2))
    = filter (λ c, cat_id c ≠ id) (categories (db w))
  ∧ (fk_restrict (db w) = true →
     Exists (references id) (transactions (db w)) →
     db (deleteCategory id w).2 = db w).
Proof.
  destruct (deleteCategory_db id w) as [->|(-> & Hfk & _)]; [done|].
  simpl. split_and!.
  - reflexivity.
  - rewrite list_filter_filter. apply list_filter_iff. intros c. tauto.
  - intros Hfk1 Hex. rewrite Hfk1, bool_decide_eq_true_2 in Hfk by done.
    discriminate Hfk.
Qed.


